(** * scholar_summary: the article pipeline and its helper classes

    A shallow embedding of [src/utils/scholarHelper.ts],
    [src/utils/cohereHelper.ts], [src/utils/llmHelper.ts], the Cohere API
    route and [generateArticle] of [src/app/page.tsx], followed by the
    properties of the pipeline that the specification states.

    JavaScript strings are sequences of UTF-16 code units; they are modelled
    as lists of such units ([N]).  Promises are awaited one after the other
    in every function modelled here, so an [async] function is a function of
    the outcomes of the calls it awaits, and an exception is a value of a sum
    type. *)

From Stdlib Require Import Ascii String Numbers.DecimalString.
From Stdlib Require Import List NArith ZArith Bool Lia.
Import ListNotations.

Set Implicit Arguments.
Set Warnings "-register-all".

(* ------------------------------------------------------------------ *)
(** ** JavaScript strings *)

Module JS.

Definition char16 := N.
Definition jsstring := list char16.

(** A literal of the source, written with ASCII characters only. *)
Definition str (s : string) : jsstring :=
  map N_of_ascii (list_ascii_of_string s).

Definition eqs (a b : jsstring) : bool :=
  if list_eq_dec N.eq_dec a b then true else false.

Definition LF : char16 := 10%N.
Definition is_nl (c : char16) : bool := N.eqb c LF.

(** [\s] of a regular expression without the [u] flag, which is also the set
    that [String.prototype.trim] removes: WhiteSpace and LineTerminator. *)
Definition is_space (c : char16) : bool :=
  ((9 <=? c) && (c <=? 13) || (c =? 32) || (c =? 160) || (c =? 5760)
   || (8192 <=? c) && (c <=? 8202) || (c =? 8232) || (c =? 8233)
   || (c =? 8239) || (c =? 8287) || (c =? 12288) || (c =? 65279))%N.

(** [\d] is [[0-9]]. *)
Definition is_digit (c : char16) : bool := ((48 <=? c) && (c <=? 57))%N.

Fixpoint dropWhile (p : char16 -> bool) (s : jsstring) : jsstring :=
  match s with
  | [] => []
  | c :: r => if p c then dropWhile p r else s
  end.

Fixpoint takeWhile (p : char16 -> bool) (s : jsstring) : jsstring :=
  match s with
  | [] => []
  | c :: r => if p c then c :: takeWhile p r else []
  end.

(** [s.trim()] *)
Definition trim (s : jsstring) : jsstring :=
  rev (dropWhile is_space (rev (dropWhile is_space s))).

(** [s.startsWith(p)] *)
Fixpoint startsWith (p s : jsstring) : bool :=
  match p, s with
  | [], _ => true
  | _ :: _, [] => false
  | a :: p', b :: s' => N.eqb a b && startsWith p' s'
  end.

(** [s.endsWith(p)] *)
Definition endsWith (p s : jsstring) : bool := startsWith (rev p) (rev s).

(** [s.includes(p)] *)
Fixpoint includes (p s : jsstring) : bool :=
  startsWith p s || match s with [] => false | _ :: r => includes p r end.

(** [a.join(sep)] on an array of strings *)
Fixpoint join (sep : jsstring) (a : list jsstring) : jsstring :=
  match a with
  | [] => []
  | [x] => x
  | x :: r => x ++ sep ++ join sep r
  end.

(** [s.split(/\s+/)]: the pieces between maximal runs of white space, with
    an empty piece before a leading run and after a trailing one; the empty
    string gives one empty piece.  [in_sep] says that the previous unit was
    white space, [cur] holds the current piece reversed. *)
Fixpoint split_ws_from (in_sep : bool) (cur s : jsstring) : list jsstring :=
  match s with
  | [] => [rev cur]
  | c :: r =>
      if is_space c
      then if in_sep then split_ws_from true [] r
           else rev cur :: split_ws_from true [] r
      else split_ws_from false (c :: cur) r
  end.

Definition split_ws (s : jsstring) : list jsstring := split_ws_from false [] s.

(** [s.split('\n')] *)
Fixpoint split_nl_from (cur s : jsstring) : list jsstring :=
  match s with
  | [] => [rev cur]
  | c :: r =>
      if is_nl c then rev cur :: split_nl_from [] r
      else split_nl_from (c :: cur) r
  end.

Definition split_nl (s : jsstring) : list jsstring := split_nl_from [] s.

(** The tail [\s*([^\n]+)] shared by the two regular expressions of the
    helpers, matched at the start of [s]: the white space consumed, the
    capture and what follows the match.  [\s*] is greedy and gives units back
    one at a time when the capture cannot start. *)
Fixpoint ws_then_line (s : jsstring)
  : option (jsstring * jsstring * jsstring) :=
  match s with
  | [] => None
  | c :: r =>
      if is_space c then
        match ws_then_line r with
        | Some (w, cap, rest) => Some (c :: w, cap, rest)
        | None =>
            if is_nl c then None
            else Some ([], takeWhile (fun x => negb (is_nl x)) s,
                           dropWhile (fun x => negb (is_nl x)) s)
        end
      else Some ([], takeWhile (fun x => negb (is_nl x)) s,
                     dropWhile (fun x => negb (is_nl x)) s)
  end.

(** Decimal rendering of an integer, as a template literal prints it. *)
Definition of_Z (z : Z) : jsstring := str (NilZero.string_of_int (Z.to_int z)).

End JS.

Import JS.

(* ------------------------------------------------------------------ *)
(** ** Errors *)

(** The text that ends up in an [error] field.  The message of an error that
    the engine raises itself (a [TypeError] on a property access, a
    [URIError]) is chosen by the engine and is kept symbolic. *)
Inductive message :=
| Msg (text : jsstring)
| EngineMsg.

(** A thrown value: an [Error] instance with its message, or anything else. *)
Inductive thrown :=
| ErrorObj (m : message)
| NonError.

(** [error instanceof Error ? error.message : fallback] *)
Definition message_of (e : thrown) (fallback : jsstring) : message :=
  match e with
  | ErrorObj m => m
  | NonError => Msg fallback
  end.

(** The result of a block that may throw. *)
Inductive exc (A : Type) :=
| Ok (a : A)
| Throw (e : thrown).
Arguments Ok {A} a.
Arguments Throw {A} e.

Definition bind {A B} (m : exc A) (k : A -> exc B) : exc B :=
  match m with
  | Ok a => k a
  | Throw e => Throw e
  end.

Notation "x <- m ;; k" := (bind m (fun x => k))
  (at level 61, m at next level, right associativity).

Definition type_error {A} : exc A := Throw (ErrorObj EngineMsg).

(* ------------------------------------------------------------------ *)
(** ** scholarHelper.ts *)

Module Scholar.

Record ScholarSearchResult := {
  title : jsstring;
  title_link : jsstring;
  id : jsstring;
  snippet : option jsstring
}.

Record SearchDetails := {
  query : jsstring;
  number_of_results : jsstring
}.

(** [response.data], read through the cast to [ScrapingDogResponse]; a field
    the body does not carry is [None]. *)
Record ScrapingDogResponse := {
  data_search_details : option SearchDetails;
  data_scholar_results : option (list ScholarSearchResult)
}.

Record ScholarSearchResponse := {
  search_details : option SearchDetails;
  scholar_results : option (list ScholarSearchResult);
  error : option message
}.

(** The fields of the class. *)
Record ScholarHelper := {
  apiKey : jsstring;
  resultsPerPage : Z;
  language : jsstring
}.

Record ScholarConfig := {
  cfg_apiKey : option jsstring;
  cfg_resultsPerPage : option Z;
  cfg_language : option jsstring
}.

(** [a || b] on an optional string: the empty string is falsy. *)
Definition or_str (a : option jsstring) (b : jsstring) : jsstring :=
  match a with
  | Some ((_ :: _) as s) => s
  | _ => b
  end.

Definition or_num (a : option Z) (b : Z) : Z :=
  match a with
  | Some z => if Z.eqb z 0 then b else z
  | None => b
  end.

(** A key that [||] passes over: undefined or the empty string. *)
Definition no_key (k : option jsstring) : bool :=
  match k with
  | Some (_ :: _) => false
  | _ => true
  end.

(** [constructor(config)]; [env_key] is [process.env.SCRAPINGDOG_KEY]. *)
Definition new_ScholarHelper (config : ScholarConfig) (env_key : option jsstring)
  : ScholarHelper :=
  {| apiKey := or_str (cfg_apiKey config) (or_str env_key []);
     resultsPerPage := or_num (cfg_resultsPerPage config) 20;
     language := or_str (cfg_language config) (str "en") |}.

(** One [axios.get]: the query parameters sent. *)
Record Request := {
  req_api_key : jsstring;
  req_query : jsstring;
  req_language : jsstring;
  req_page : Z;
  req_results : Z
}.

(** What [await axios.get(...)] gives: a response with its status and body
    ([None] for the body [null]), or a rejection (a network error; with its
    default settings axios also rejects on a status outside 2xx, so that a
    response reaches the test on the status only with a status 2xx). *)
Inductive HttpOutcome :=
| Response (status : Z) (data : option ScrapingDogResponse)
| Rejected (e : thrown).

(** The network: the outcome of a request, which may depend on the requests
    made before it. *)
Definition Network := list Request -> Request -> HttpOutcome.

Definition QUOTE : char16 := 34%N.
Definition APOSTROPHE : char16 := 39%N.

(** [query.replace(/[...]/g, '')], the class holding the apostrophe and the
    double quote. *)
Definition strip_quotes (q : jsstring) : jsstring :=
  filter (fun c => negb (N.eqb c APOSTROPHE || N.eqb c QUOTE)) q.

(** A unit that is not white space, and one that [strip_quotes] keeps. *)
Definition plain (c : char16) : Prop := is_space c = false.
Definition unquoted (c : char16) : Prop :=
  negb (N.eqb c APOSTROPHE || N.eqb c QUOTE) = true.

(** The [keywords] of the fallback:
    [.split(/\s+/).filter(word => word.length > 3).slice(0, 3)]. *)
Definition keywords (q : jsstring) : list jsstring :=
  firstn 3 (filter (fun w => Nat.ltb 3 (length w)) (split_ws (strip_quotes q))).

(** [keywords.join(' ')] *)
Definition generalQuery (q : jsstring) : jsstring := join (str " ") (keywords q).

Definition synthetic (q : jsstring) (m : message) : ScholarSearchResponse :=
  {| search_details := Some {| query := q; number_of_results := str "0 results" |};
     scholar_results := Some [];
     error := Some m |}.

Definition missing_key_message : jsstring :=
  str "ScrapingDog API key is not configured. Please set SCRAPINGDOG_KEY in .env.local".

Definition status_message (status : Z) : jsstring :=
  str "Request failed with status code: " ++ of_Z status.

Definition unknown_search_error : jsstring :=
  str "Unknown error searching for articles".

Definition mkRequest (h : ScholarHelper) (q : jsstring) (page : Z) : Request :=
  {| req_api_key := apiKey h; req_query := q; req_language := language h;
     req_page := page; req_results := resultsPerPage h |}.

(** [searchArticles(query, page)].  [log] is the list of requests made so
    far, oldest first; the result comes with the log extended by the requests
    of this call.  The method calls itself for the broadened query; [fuel]
    bounds the depth of these calls and [None] means that it ran out. *)
Fixpoint searchArticles (fuel : nat) (h : ScholarHelper) (net : Network)
    (log : list Request) (q : jsstring) (page : Z)
  : option (ScholarSearchResponse * list Request) :=
  match fuel with
  | O => None
  | S fuel' =>
      match apiKey h with
      | [] => Some (synthetic q (Msg missing_key_message), log)
      | _ :: _ =>
          let r := mkRequest h q page in
          let log' := log ++ [r] in
          match net log r with
          | Rejected e =>
              Some (synthetic q (message_of e unknown_search_error), log')
          | Response status None =>
              if negb (Z.eqb status 200)
              then Some (synthetic q (Msg (status_message status)), log')
              else Some (synthetic q EngineMsg, log')
          | Response status (Some data) =>
              if negb (Z.eqb status 200)
              then Some (synthetic q (Msg (status_message status)), log')
              else
                let plain :=
                  Some ({| search_details := data_search_details data;
                           scholar_results :=
                             Some (match data_scholar_results data with
                                   | Some l => l
                                   | None => []
                                   end);
                           error := None |}, log') in
                match data_scholar_results data with
                | Some [] =>
                    match keywords q with
                    | [] => plain
                    | _ :: _ =>
                        if negb (eqs (generalQuery q) q)
                        then searchArticles fuel' h net log' (generalQuery q) page
                        else plain
                    end
                | _ => plain
                end
          end
      end
  end.

(** How one request is answered when no retry follows it. *)
Definition answer (q : jsstring) (o : HttpOutcome) : ScholarSearchResponse :=
  match o with
  | Rejected e => synthetic q (message_of e unknown_search_error)
  | Response status None =>
      if negb (Z.eqb status 200) then synthetic q (Msg (status_message status))
      else synthetic q EngineMsg
  | Response status (Some data) =>
      if negb (Z.eqb status 200) then synthetic q (Msg (status_message status))
      else {| search_details := data_search_details data;
              scholar_results := Some (match data_scholar_results data with
                                       | Some l => l
                                       | None => []
                                       end);
              error := None |}
  end.

(** A request fails when it is rejected or answered with a status other
    than 200. *)
Definition failed (o : HttpOutcome) : bool :=
  match o with
  | Rejected _ => true
  | Response status _ => negb (Z.eqb status 200)
  end.

(** Why a call fails: the credential is missing, a response has a status
    other than 200, or the request is rejected with a thrown value. *)
Inductive cause :=
| NoCredential
| BadStatus (status : Z)
| Rejection (e : thrown).

(** The outcome of a request is a failure, with its cause. *)
Inductive failure : HttpOutcome -> cause -> Prop :=
| failure_status status body :
    status <> 200%Z -> failure (Response status body) (BadStatus status)
| failure_rejected e :
    failure (Rejected e) (Rejection e).

(** The ways in which a request of one call fails, with the query it fails
    for, the cause and the requests made: the credential is missing, the
    first request fails, or the first gives an empty list and the request for
    the broadened query fails. *)
Inductive fails (h : ScholarHelper) (net : Network) (log : list Request) (q : jsstring) (page : Z)
  : jsstring -> cause -> list Request -> Prop :=
| fails_credential :
    apiKey h = [] -> fails h net log q page q NoCredential log
| fails_first c :
    apiKey h <> [] ->
    failure (net log (mkRequest h q page)) c ->
    fails h net log q page q c (log ++ [mkRequest h q page])
| fails_retry data c :
    apiKey h <> [] ->
    net log (mkRequest h q page) = Response 200 (Some data) ->
    data_scholar_results data = Some [] ->
    keywords q <> [] ->
    generalQuery q <> q ->
    failure (net (log ++ [mkRequest h q page]) (mkRequest h (generalQuery q) page)) c ->
    fails h net log q page (generalQuery q) c
      (log ++ [mkRequest h q page; mkRequest h (generalQuery q) page]).

(** [searchByInterests(interests, page)] *)
Definition searchByInterests (fuel : nat) (h : ScholarHelper) (net : Network)
    (log : list Request) (interests : list jsstring) (page : Z) :=
  searchArticles fuel h net log (join (str " ") interests) page.

(** [interests.slice(2)] is [skipn 2], [interests.slice(0, 2)] is [firstn 2]. *)
Definition advancedQuery (interests : list jsstring) : jsstring :=
  match interests with
  | [a] => a
  | [a; b] => a ++ str " AND " ++ b
  | _ =>
      let primaryInterests := join (str " AND ") (firstn 2 interests) in
      let secondaryInterests := join (str " OR ") (skipn 2 interests) in
      str "(" ++ primaryInterests ++ str ") AND (" ++ secondaryInterests ++ str ")"
  end.

(** [searchWithAdvancedQuery(interests, page)] *)
Definition searchWithAdvancedQuery (fuel : nat) (h : ScholarHelper)
    (net : Network) (log : list Request) (interests : list jsstring) (page : Z) :=
  searchArticles fuel h net log (advancedQuery interests) page.

End Scholar.

(* ------------------------------------------------------------------ *)
(** ** JavaScript values *)

(** A value as [JSON.parse] or a client library hands it over.  Numbers are
    the integers, which stand for the JavaScript numbers of the same value:
    fractions, infinities and [NaN] are not among the values, and an integer
    stands for a number only while that number is written without an
    exponent (magnitude below 10^21).  An object is its list of own
    properties. *)
Inductive value :=
| VUndefined
| VNull
| VBool (b : bool)
| VNum (z : Z)
| VStr (s : jsstring)
| VArr (items : list value)
| VObj (fields : list (jsstring * value)).

Module Val.

(** [!!v] *)
Definition truthy (v : value) : bool :=
  match v with
  | VUndefined | VNull => false
  | VBool b => b
  | VNum z => negb (Z.eqb z 0)
  | VStr [] => false
  | _ => true
  end.

Fixpoint lookup (k : jsstring) (fs : list (jsstring * value)) : option value :=
  match fs with
  | [] => None
  | (k', v) :: r => if eqs k k' then Some v else lookup k r
  end.

(** [v.k] for a property name; the elements of an array or a string are read
    with [at_index]. *)
Definition get (v : value) (k : jsstring) : exc value :=
  match v with
  | VUndefined | VNull => type_error
  | VObj fs => Ok (match lookup k fs with Some x => x | None => VUndefined end)
  | VArr l =>
      Ok (if eqs k (str "length") then VNum (Z.of_nat (length l)) else VUndefined)
  | VStr s =>
      Ok (if eqs k (str "length") then VNum (Z.of_nat (length s)) else VUndefined)
  | _ => Ok VUndefined
  end.

(** ['k' in v] *)
Definition has (k : jsstring) (v : value) : exc bool :=
  match v with
  | VObj fs => Ok (match lookup k fs with Some _ => true | None => false end)
  | VArr l => Ok (eqs k (str "length"))
  | _ => type_error
  end.

Definition is_string (v : value) : bool :=
  match v with VStr _ => true | _ => false end.

Definition isArray (v : value) : bool :=
  match v with VArr _ => true | _ => false end.

(** [v.length] as a number, [None] when it is not one.  It is exact for
    arrays, strings and objects whose own [length] is a number or is absent.
    An object whose own [length] is a string, a boolean or null would have
    it coerced by [>] and [*]; the coercion is not part of the model and
    such an object is read as having no length. *)
Definition length_of (v : value) : option Z :=
  match v with
  | VArr l => Some (Z.of_nat (length l))
  | VStr s => Some (Z.of_nat (length s))
  | VObj fs => match lookup (str "length") fs with
               | Some (VNum n) => Some n
               | _ => None
               end
  | _ => None
  end.

(** [v[i]] for an integer [i], on a value that is neither null nor
    undefined. *)
Definition at_index (v : value) (i : Z) : value :=
  match v with
  | VArr l => if Z.ltb i 0 then VUndefined else nth (Z.to_nat i) l VUndefined
  | VStr s => if Z.ltb i 0 then VUndefined
              else match nth_error s (Z.to_nat i) with
                   | Some c => VStr [c]
                   | None => VUndefined
                   end
  | VObj fs => match lookup (of_Z i) fs with Some x => x | None => VUndefined end
  | _ => VUndefined
  end.

(** The string that a template literal or [join] makes of a value.  A
    number is written with all its digits, as JavaScript does below 10^21;
    from there on JavaScript writes an exponent, which is not part of the
    model. *)
Fixpoint to_string (v : value) : jsstring :=
  match v with
  | VUndefined => str "undefined"
  | VNull => str "null"
  | VBool true => str "true"
  | VBool false => str "false"
  | VNum z => of_Z z
  | VStr s => s
  | VArr l =>
      join (str ",")
        (map (fun x => match x with
                       | VUndefined | VNull => []
                       | _ => to_string x
                       end) l)
  | VObj _ => str "[object Object]"
  end.

(** An element of an array inside [join]: null and undefined give the empty
    string. *)
Definition join_piece (v : value) : jsstring :=
  match v with
  | VUndefined | VNull => []
  | _ => to_string v
  end.

End Val.

(* ------------------------------------------------------------------ *)
(** ** cohereHelper.ts and the route that serves it *)

Module Cohere.

Record CohereConfig := {
  cfg_apiKey : option jsstring;
  cfg_model : option jsstring
}.

(** [process.env] *)
Record Env := {
  COHERE_KEY : option jsstring;
  COHERE_MODEL_FINE_TUNED : option jsstring
}.

(** The fields of the class; the client holds the token.  The sampling
    temperature is a constant handed to the client unchanged and is left
    out. *)
Record CohereHelper := {
  token : jsstring;
  model : jsstring
}.

Record QueryGenerationResponse := {
  queries : list jsstring;
  error : option message
}.

Definition missing_key_message : jsstring :=
  str "Cohere API key is not configured. Please set COHERE_KEY in .env.local".

(** [constructor(config)]: throws when no key is configured. *)
Definition new_CohereHelper (config : CohereConfig) (env : Env) : exc CohereHelper :=
  let apiKey := Scholar.or_str (cfg_apiKey config) (Scholar.or_str (COHERE_KEY env) []) in
  let model := Scholar.or_str (cfg_model config)
                 (Scholar.or_str (COHERE_MODEL_FINE_TUNED env) (str "command-a-03-2025")) in
  match apiKey with
  | [] => Throw (ErrorObj (Msg missing_key_message))
  | _ :: _ => Ok {| token := apiKey; model := model |}
  end.

Definition DOT : char16 := 46%N.

(** One attempt of [/\d+\.\s*([^\n]+)/] at the start of [s]: the text matched.
    [\d+] takes the whole run of digits, since a shorter run is followed by a
    digit and not by the dot. *)
Definition numbered_at (s : jsstring) : option jsstring :=
  match takeWhile is_digit s, dropWhile is_digit s with
  | (_ :: _) as d, c :: r =>
      if N.eqb c DOT then
        match ws_then_line r with
        | Some (w, cap, _) => Some (d ++ [c] ++ w ++ cap)
        | None => None
        end
      else None
  | _, _ => None
  end.

(** [response.match(/\d+\.\s*([^\n]+)/g)]: the matches from left to right,
    each search starting where the previous match ended; [skip] counts the
    units of the last match that are still to be passed.  No match at all
    ([null] in the source) is the empty list. *)
Fixpoint match_numbered (skip : nat) (s : jsstring) : list jsstring :=
  match s with
  | [] => []
  | _ :: r =>
      match skip with
      | S k => match_numbered k r
      | O =>
          match numbered_at s with
          | Some m => m :: match_numbered (length m - 1) r
          | None => match_numbered 0 r
          end
      end
  end.

(** [item.replace(/^\d+\.\s*/, '')] *)
Definition strip_marker (item : jsstring) : jsstring :=
  match takeWhile is_digit item, dropWhile is_digit item with
  | _ :: _, c :: r => if N.eqb c DOT then dropWhile is_space r else item
  | _, _ => item
  end.

(** A string begins with an enumeration marker: digits, a dot and a space. *)
Definition begins_with_marker (s : jsstring) : bool :=
  match takeWhile is_digit s, dropWhile is_digit s with
  | _ :: _, c :: d :: _ => N.eqb c DOT && N.eqb d 32%N
  | _, _ => false
  end.

(** [parseQueriesFromResponse(response)] *)
Definition parseQueriesFromResponse (response : jsstring) : list jsstring :=
  match match_numbered 0 response with
  | (_ :: _) as numberedList =>
      map (fun item => trim (strip_marker item)) numberedList
  | [] =>
      let lineBreakQueries :=
        filter (fun line => negb (Nat.eqb (length line) 0)
                            && negb (startsWith (str "Here") line)
                            && negb (startsWith (str "Based") line))
               (map trim (split_nl response)) in
      match lineBreakQueries with
      | _ :: _ => lineBreakQueries
      | [] => [trim response]
      end
  end.

(** What [await this.client.chat(...)] gives. *)
Inductive ChatOutcome :=
| ChatText (text : jsstring)
| ChatRejected (e : thrown).

Record ChatRequest := {
  chat_token : jsstring;
  chat_model : jsstring;
  chat_message : jsstring
}.

Definition Client := ChatRequest -> ChatOutcome.

Definition unknown_generation_error : jsstring :=
  str "Unknown error generating search queries".

(** [generateSearchQueries(interests)] *)
Definition generateSearchQueries (h : CohereHelper) (client : Client)
    (interests : list jsstring) : QueryGenerationResponse :=
  let interestsString := join (str ", ") interests in
  match client {| chat_token := token h; chat_model := model h;
                  chat_message :=
                    str "Generate 5 Google Scholar search queries based on these interests: "
                    ++ interestsString |} with
  | ChatText text => {| queries := parseQueriesFromResponse text; error := None |}
  | ChatRejected e =>
      {| queries := []; error := Some (message_of e unknown_generation_error) |}
  end.

(** [generateOptimizedQuery(interests)] *)
Definition generateOptimizedQuery (h : CohereHelper) (client : Client)
    (interests : list jsstring) : jsstring :=
  match queries (generateSearchQueries h client interests) with
  | q :: _ => q
  | [] => join (str " ") interests
  end.

(** The body of a response of the route. *)
Inductive RouteBody :=
| ErrorBody (m : message)
| ResultBody (r : QueryGenerationResponse).

Record RouteResponse := {
  status : Z;
  body : RouteBody
}.

(** [POST(request)] of the route; [request_json] is what
    [await request.json()] gives.  The interests reach the helper as the
    array of the body; the helper only joins them, which reads each element
    as [join_piece] does. *)
Definition POST (env : Env) (client : Client) (request_json : exc value)
  : RouteResponse :=
  let attempt : exc RouteResponse :=
    body <- request_json ;;
    interests <- Val.get body (str "interests") ;;
    match interests with
    | VArr ((_ :: _) as items) =>
        cohereHelper <- new_CohereHelper {| cfg_apiKey := None; cfg_model := None |} env ;;
        Ok {| status := 200;
              body := ResultBody (generateSearchQueries cohereHelper client
                                    (map Val.join_piece items)) |}
    | _ =>
        Ok {| status := 400;
              body := ErrorBody (Msg (str "Interests must be a non-empty array")) |}
    end in
  match attempt with
  | Ok r => r
  | Throw e => {| status := 500; body := ErrorBody (message_of e (str "Unknown error")) |}
  end.

End Cohere.

(* ------------------------------------------------------------------ *)
(** ** llmHelper.ts *)

Module LLM.

Record SummaryResponse := {
  title : jsstring;
  summary : jsstring;
  error : option message
}.

(** [toLowerCase] on one code unit.  The table holds the ASCII and Latin-1
    capitals and the two other characters whose lower case contains an ASCII
    letter (U+0130, which becomes [i] followed by U+0307, and the Kelvin sign
    U+212A).  Every other mapping of the Unicode table takes a unit outside
    ASCII to units outside ASCII and is left out, so that a search for an
    ASCII text in the result is exact. *)
Definition lower_unit (c : char16) : jsstring :=
  if ((65 <=? c) && (c <=? 90))%N then [(c + 32)%N]
  else if ((192 <=? c) && (c <=? 222) && negb (c =? 215))%N then [(c + 32)%N]
  else if (c =? 304)%N then [105; 775]%N
  else if (c =? 8490)%N then [107%N]
  else [c].

Definition toLowerCase (s : jsstring) : jsstring := flat_map lower_unit s.

(** Comparison of a code unit with an ASCII character of a pattern under the
    [i] flag: both are canonicalised to upper case, and a unit outside ASCII
    never canonicalises to an ASCII one. *)
Definition upper_ascii (c : char16) : char16 :=
  if ((97 <=? c) && (c <=? 122))%N then (c - 32)%N else c.

Definition same_ci (p c : char16) : bool := N.eqb (upper_ascii p) (upper_ascii c).

Fixpoint starts_ci (p s : jsstring) : bool :=
  match p, s with
  | [], _ => true
  | _ :: _, [] => false
  | a :: p', b :: s' => same_ci a b && starts_ci p' s'
  end.

Definition marker : jsstring := str "title:".

(** The first match of [/title:\s*([^\n]+)/i] in [s]: the text before the
    match, the capture, and the text after the match. *)
Fixpoint title_search (s : jsstring) : option (jsstring * jsstring * jsstring) :=
  match (if starts_ci marker s then ws_then_line (skipn 6 s) else None) with
  | Some (_, cap, rest) => Some ([], cap, rest)
  | None =>
      match s with
      | [] => None
      | c :: r =>
          match title_search r with
          | Some (before, cap, rest) => Some (c :: before, cap, rest)
          | None => None
          end
      end
  end.

(** The text holds the marker, in some letter case, at some position. *)
Fixpoint mentions_title (s : jsstring) : bool :=
  starts_ci marker s
  || match s with
     | [] => false
     | _ :: r => mentions_title r
     end.

Definition default_title : jsstring := str "Scholarly Article".

(** [articleText.length > 8000 ? articleText.substring(0, 8000) + '...' : articleText] *)
Definition max_length : nat := N.to_nat 8000.

Definition truncate (articleText : jsstring) : jsstring :=
  if Nat.ltb max_length (length articleText)
  then firstn max_length articleText ++ str "..."
  else articleText.

(** The title and the content that [summarizeArticle] takes from its input. *)
Definition extractTitle (articleText : jsstring) : jsstring * jsstring :=
  let truncatedText := truncate articleText in
  if includes (str "title:") (toLowerCase truncatedText) then
    match title_search truncatedText with
    | Some (before, (_ :: _) as cap, rest) => (trim cap, trim (before ++ rest))
    | _ => (default_title, truncatedText)
    end
  else (default_title, truncatedText).

Definition ELLIPSIS : char16 := 8230%N.

(** The text of the user message of the request. *)
Definition prompt (title content : jsstring) : jsstring :=
  str "title: " ++ title ++ [32%N; ELLIPSIS; 32%N] ++ content ++ [32%N; ELLIPSIS; LF]
  ++ str "Expand" ++ [LF] ++ str "Assistant".

(** The loop over [output.content]: the text of the first item of type
    [output_text] whose text is truthy; [summary] keeps its initial empty
    string when there is none. *)
Fixpoint first_output_text (items : list value) : exc value :=
  match items with
  | [] => Ok (VStr [])
  | item :: r =>
      ty <- Val.get item (str "type") ;;
      match ty with
      | VStr t =>
          if eqs t (str "output_text") then
            tx <- Val.get item (str "text") ;;
            if Val.truthy tx then Ok tx else first_output_text r
          else first_output_text r
      | _ => first_output_text r
      end
  end.

(** The chain of tests on the response, up to the value left in [summary]. *)
Definition extractSummary (response : value) : exc value :=
  has_output_text <- Val.has (str "output_text") response ;;
  output_text <- Val.get response (str "output_text") ;;
  if has_output_text && Val.is_string output_text then
    Ok (if Val.truthy output_text then output_text else VStr [])
  else
    has_output <- Val.has (str "output") response ;;
    output <- Val.get response (str "output") ;;
    match has_output, output with
    | true, VArr (output0 :: _) =>
        if Val.truthy output0 then
          content <- Val.get output0 (str "content") ;;
          match content with
          | VArr items => first_output_text items
          | _ => Ok (VStr [])
          end
        else Ok (VStr [])
    | _, _ =>
        text <- Val.get response (str "text") ;;
        match text with
        | VStr _ => Ok text
        | VUndefined =>
            has_choices <- Val.has (str "choices") response ;;
            if has_choices then
              choices <- Val.get response (str "choices") ;;
              if Val.truthy choices
                 && match Val.length_of choices with
                    | Some n => Z.ltb 0 n
                    | None => false
                    end
              then
                let firstChoice := Val.at_index choices 0 in
                message <- Val.get firstChoice (str "message") ;;
                if Val.truthy message then
                  content <- Val.get message (str "content") ;;
                  Ok (if Val.truthy content then content else VStr [])
                else Ok (VStr [])
              else Ok (VStr [])
            else Ok (VStr (str "Unable to extract summary from response."))
        | _ => Ok (VStr (str "No summary content available from text property."))
        end
    end.

Definition default_summary (title : jsstring) : jsstring :=
  str "The article discusses " ++ title
  ++ str ". Unfortunately, not enough context was available to generate a detailed summary.".

(** The guard on [summary]; [summary.trim()] on a truthy value that is not a
    string is a [TypeError]. *)
Definition guardSummary (title : jsstring) (summary : value) : exc jsstring :=
  if negb (Val.truthy summary) then Ok (default_summary title)
  else match summary with
       | VStr s =>
           if eqs (trim s) [] || (startsWith (str "{") s && endsWith (str "}") s)
           then Ok (default_summary title)
           else Ok s
       | _ => type_error
       end.

(** A text that the guard lets through. *)
Definition usable (t : jsstring) : bool :=
  negb (eqs (trim t) [])
  && negb (startsWith (str "{") t && endsWith (str "}") t).









Definition error_title : jsstring := str "Error Summarizing Article".
Definition error_summary : jsstring := str "There was an error generating the summary.".
Definition unknown_summary_error : jsstring := str "Unknown error summarizing article".

(** What [await this.openai.responses.create(...)] gives for the text of the
    user message. *)
Definition Responses := jsstring -> exc value.

(** [summarizeArticle(articleText)] *)
Definition summarizeArticle (create : Responses) (articleText : jsstring)
  : SummaryResponse :=
  let '(title, content) := extractTitle articleText in
  let attempt : exc SummaryResponse :=
    response <- create (prompt title content) ;;
    extracted <- extractSummary response ;;
    summary <- guardSummary title extracted ;;
    Ok {| title := title; summary := summary; error := None |} in
  match attempt with
  | Ok r => r
  | Throw e =>
      {| title := error_title; summary := error_summary;
         error := Some (message_of e unknown_summary_error) |}
  end.

End LLM.

(* ------------------------------------------------------------------ *)
(** ** generateArticle of page.tsx *)

Module Page.

(** The [article] of the page; a field that is not set is [VUndefined]. *)
Record Article := {
  title : value;
  summary : value;
  link : value;
  originalTitle : value
}.

Record PageState := {
  interests : list jsstring;
  article : option Article;
  loading : bool
}.

Inductive FetchCall :=
| PostCohere (interests : list jsstring)
| GetScholar (query : jsstring)
| PostSummarize (text : jsstring).

(** What [await fetch(...)] gives: a rejection, or a response with its [ok]
    flag and what [await response.json()] gives. *)
Inductive FetchOutcome :=
| FetchRejected (e : thrown)
| FetchResponse (ok : bool) (json : exc value).

(** The three endpoints as the page sees them; an outcome may depend on the
    calls made before. *)
Definition Fetch := list FetchCall -> FetchCall -> FetchOutcome.

Definition message_article (t s : jsstring) : Article :=
  {| title := VStr t; summary := VStr s; link := VUndefined; originalTitle := VUndefined |}.

Definition no_queries : Article :=
  message_article (str "No Queries Generated")
    (str "We couldn't generate any queries based on your interests. Please try with different interests.").

Definition no_results (cleanQuery : jsstring) : Article :=
  message_article (str "No Results Found for: " ++ cleanQuery)
    (str "We couldn't find any scholarly articles for the query: " ++ [Scholar.QUOTE]
     ++ cleanQuery ++ [Scholar.QUOTE] ++ str ". Please try with different interests.").

Definition invalid_format (cleanQuery : jsstring) : Article :=
  message_article (str "Invalid Results Format for: " ++ cleanQuery)
    (str "The search results were not in the expected format. Please try again.").

Definition selection_error : Article :=
  message_article (str "Error Processing Results")
    (str "We encountered an error while processing the search results. Please try again.").

Definition generic_error : Article :=
  message_article (str "Error Generating Article")
    (str "An error occurred while generating the article. Please try again later.").

(** [Math.floor(Math.random() * len)]: an index below a positive [len], drawn
    by [r]; between a negative [len] and zero; not a number when [len] is
    none. *)
Definition random_index (len : option Z) (r : nat) : option Z :=
  match len with
  | Some n =>
      if Z.ltb 0 n then Some (Z.of_nat r mod n)%Z
      else Some (- (Z.of_nat r mod (1 - n)))%Z
  | None => None
  end.

(** [v[Math.floor(Math.random() * v.length)]] for a truthy [v]. *)
Definition pick (v : value) (r : nat) : value :=
  match random_index (Val.length_of v) r with
  | Some i => Val.at_index v i
  | None =>
      match v with
      | VObj fs => match Val.lookup (str "NaN") fs with Some x => x | None => VUndefined end
      | _ => VUndefined
      end
  end.

Definition STAR : char16 := 42%N.

(** [selectedQuery.replace(/\*\*/g, '')] *)
Fixpoint strip_stars (s : jsstring) : jsstring :=
  match s with
  | a :: ((b :: r) as t) =>
      if N.eqb a STAR && N.eqb b STAR then strip_stars r else a :: strip_stars t
  | _ => s
  end.

(** [encodeURIComponent] throws on a surrogate without its partner. *)
Fixpoint well_formed (s : jsstring) : bool :=
  match s with
  | [] => true
  | c :: r =>
      if ((55296 <=? c) && (c <=? 56319))%N then
        match r with
        | d :: r' => ((56320 <=? d) && (d <=? 57343))%N && well_formed r'
        | [] => false
        end
      else if ((56320 <=? c) && (c <=? 57343))%N then false
      else well_formed r
  end.

(** Steps 4 and 5: the summary of the selected result. *)
Definition summarizeStage (fetch : Fetch) (log : list FetchCall)
    (selectedResult resultTitle : value) : list FetchCall * exc Article :=
  let attempt_text : exc jsstring :=
    snippet <- Val.get selectedResult (str "snippet") ;;
    Ok (str "title: " ++ Val.to_string resultTitle ++ [LF]
        ++ (if Val.truthy snippet then Val.to_string snippet else [])) in
  match attempt_text with
  | Throw e => (log, Throw e)
  | Ok articleText =>
      let call := PostSummarize articleText in
      (log ++ [call],
       match fetch log call with
       | FetchRejected e => Throw e
       | FetchResponse false _ =>
           Throw (ErrorObj (Msg (str "Failed to summarize article")))
       | FetchResponse true json =>
           summaryData <- json ;;
           t <- Val.get summaryData (str "title") ;;
           s <- Val.get summaryData (str "summary") ;;
           l <- Val.get selectedResult (str "title_link") ;;
           Ok {| title := if Val.truthy t then t else resultTitle;
                 summary := if Val.truthy s then s else VStr (str "No summary available.");
                 link := l;
                 originalTitle := resultTitle |}
       end)
  end.

(** Steps 2 and 3: the search and the choice of a result. *)
Definition searchStage (fetch : Fetch) (log : list FetchCall)
    (cleanQuery : jsstring) (r2 : nat) : list FetchCall * exc Article :=
  if negb (well_formed cleanQuery) then (log, type_error)
  else
    let call := GetScholar cleanQuery in
    let log' := log ++ [call] in
    match fetch log call with
    | FetchRejected e => (log', Throw e)
    | FetchResponse _ (Throw e) => (log', Throw e)
    | FetchResponse _ (Ok scholarData) =>
        match Val.get scholarData (str "scholar_results") with
        | Throw e => (log', Throw e)
        | Ok results =>
            if negb (Val.truthy results)
               || match Val.length_of results with
                  | Some n => Z.eqb n 0
                  | None => false
                  end
            then (log', Ok (no_results cleanQuery))
            else if negb (Val.isArray results)
            then (log', Ok (invalid_format cleanQuery))
            else
              let selectedResult := pick results r2 in
              if negb (Val.truthy selectedResult) then (log', Ok selection_error)
              else
                match Val.get selectedResult (str "title") with
                | Throw e => (log', Throw e)
                | Ok resultTitle =>
                    if negb (Val.truthy resultTitle) then (log', Ok selection_error)
                    else summarizeStage fetch log' selectedResult resultTitle
                end
        end
    end.

(** Step 1 and what follows it: everything inside the [try]. *)
Definition run (fetch : Fetch) (interests : list jsstring) (r1 r2 : nat)
  : list FetchCall * exc Article :=
  let call := PostCohere interests in
  let log := [call] in
  match fetch [] call with
  | FetchRejected e => (log, Throw e)
  | FetchResponse _ (Throw e) => (log, Throw e)
  | FetchResponse _ (Ok cohereData) =>
      match Val.get cohereData (str "queries") with
      | Throw e => (log, Throw e)
      | Ok queries =>
          if negb (Val.truthy queries)
             || match Val.length_of queries with
                | Some n => Z.eqb n 0
                | None => false
                end
          then (log, Ok no_queries)
          else
            match pick queries r1 with
            | VStr selectedQuery => searchStage fetch log (strip_stars selectedQuery) r2
            | _ => (log, type_error)
            end
      end
  end.

(** [generateArticle()]: the state of the page when the promise settles, and
    the calls made.  [r1] and [r2] are the two random draws. *)
Definition generateArticle (fetch : Fetch) (r1 r2 : nat) (st : PageState)
  : PageState * list FetchCall :=
  match interests st with
  | [] => (st, [])
  | _ :: _ =>
      let '(log, outcome) := run fetch (interests st) r1 r2 in
      ({| interests := interests st;
          article := Some (match outcome with
                           | Ok a => a
                           | Throw _ => generic_error
                           end);
          loading := false |}, log)
  end.

End Page.

(* ------------------------------------------------------------------ *)
(** ** The route of the summarizer: api/summarize/route.ts *)

Module SummarizeRoute.

Inductive RouteBody :=
| ErrorBody (m : message)
| ResultBody (r : LLM.SummaryResponse).

Record RouteResponse := {
  status : Z;
  body : RouteBody
}.

(** [POST(request)].  [request_json] is what [await request.json()] gives;
    [helper] is what [new LLMHelper(...)] gives, the responses of its client
    or the exception of the client's constructor, which is code outside the
    repository. *)
Definition POST (helper : exc LLM.Responses) (request_json : exc value)
  : RouteResponse :=
  let invalid :=
    {| status := 400; body := ErrorBody (Msg (str "Text must be a non-empty string")) |} in
  let attempt : exc RouteResponse :=
    body <- request_json ;;
    text <- Val.get body (str "text") ;;
    match text with
    | VStr t =>
        if negb (Val.truthy text) || Nat.eqb (length (trim t)) 0 then Ok invalid
        else
          llmHelper <- helper ;;
          Ok {| status := 200; body := ResultBody (LLM.summarizeArticle llmHelper t) |}
    | _ => Ok invalid
    end in
  match attempt with
  | Ok r => r
  | Throw e => {| status := 500; body := ErrorBody (message_of e (str "Unknown error")) |}
  end.

(** The client library, which is code outside the repository: what
    [new OpenAI({ apiKey, ... })] gives for a key, the responses of the client
    or the exception of its constructor. *)
Definition Client := jsstring -> exc LLM.Responses.


End SummarizeRoute.

(* ------------------------------------------------------------------ *)
(** ** The interest list of page.tsx *)

Module Interests.

(** [addInterest()]: the input field and the list after the call. *)
Definition addInterest (interest : jsstring) (interests : list jsstring)
  : jsstring * list jsstring :=
  match trim interest with
  | [] => (interest, interests)
  | _ :: _ =>
      if existsb (eqs (trim interest)) interests then (interest, interests)
      else ([], interests ++ [trim interest])
  end.

(** [newInterests.splice(index, 1)] on a copy: a negative [index] counts from
    the end, an [index] past the end removes nothing. *)
Definition removeInterest (index : Z) (interests : list jsstring) : list jsstring :=
  let len := Z.of_nat (length interests) in
  let start := if Z.ltb index 0 then Z.max (len + index) 0 else Z.min index len in
  firstn (Z.to_nat start) interests ++ skipn (S (Z.to_nat start)) interests.

End Interests.

(* ------------------------------------------------------------------ *)
(** ** What an article on the page holds *)

Module View.

(** An article with a title and a summary to show; a link only next to the
    title of the search result it belongs to. *)
Definition populated (a : Page.Article) : Prop :=
  Val.truthy (Page.title a) = true
  /\ Val.truthy (Page.summary a) = true
  /\ (Val.truthy (Page.originalTitle a) = true \/ Page.link a = VUndefined).

End View.

(* ------------------------------------------------------------------ *)
(** ** Concrete inputs used below *)

Module Sample.

Import Scholar.

Definition helper : ScholarHelper :=
  new_ScholarHelper
    {| cfg_apiKey := Some (str "key"); cfg_resultsPerPage := None; cfg_language := None |}
    None.

Definition empty_data : ScrapingDogResponse :=
  {| data_search_details := None; data_scholar_results := Some [] |}.

(** A network that finds nothing for the first request and answers every
    later one with [later]. *)
Definition net_then (later : HttpOutcome) : Network :=
  fun log _ =>
    match log with
    | [] => Response 200 (Some empty_data)
    | _ :: _ => later
    end.

Definition found_nothing : HttpOutcome := Response 200 (Some empty_data).

Definition one_result : ScholarSearchResult :=
  {| title := str "Quantum supremacy"; title_link := str "https://example.org/q";
     id := str "q1"; snippet := None |}.

Definition found_one : ScrapingDogResponse :=
  {| data_search_details := None; data_scholar_results := Some [one_result] |}.

(** A network that finds one article for every request. *)
Definition net_found : Network := fun _ _ => Response 200 (Some found_one).

Definition network_error : HttpOutcome := Rejected (ErrorObj (Msg (str "Network Error"))).

Definition q0 : jsstring := str "the quantum computing".

(** The same query with the word quantum in double quotes and two spaces
    after it. *)
Definition q1 : jsstring :=
  str "the " ++ [Scholar.QUOTE] ++ str "quantum" ++ [Scholar.QUOTE] ++ str "  computing".



Definition fetch_no_queries : Page.Fetch :=
  fun _ _ => Page.FetchResponse true (Ok (VObj [(str "queries", VArr [])])).

Definition page0 : Page.PageState :=
  {| Page.interests := [str "AI"; str "climate"]; Page.article := None;
     Page.loading := false |}.



Definition replies (response : value) : LLM.Responses := fun _ => Ok response.

(** A numbered list as the model writes it: each item is its number, a dot, a
    space and the query, and the items stand on lines of their own. *)
Definition numbered (items : list (jsstring * jsstring)) : jsstring :=
  join [LF] (map (fun item => fst item ++ Cohere.DOT :: 32%N :: snd item) items).



Definition text_body : value :=
  VObj [(str "text", VStr (str "title: Foo" ++ LF :: str "Body"))].

Definition blank_body : value := VObj [(str "text", VStr (str "  "))].

Definition rejecting : LLM.Responses :=
  fun _ => Throw (ErrorObj (Msg (str "401 Incorrect API key provided"))).



Definition article_json : value :=
  VObj [(str "title", VStr (str "Quantum supremacy"));
        (str "title_link", VStr (str "https://example.org/q"));
        (str "snippet", VStr (str "We report"))].

(** The endpoints of a run that goes through. *)
Definition fetch_success : Page.Fetch :=
  fun _ call =>
    match call with
    | Page.PostCohere _ =>
        Page.FetchResponse true
          (Ok (VObj [(str "queries", VArr [VStr (str "**deep** learning")])]))
    | Page.GetScholar _ =>
        Page.FetchResponse true (Ok (VObj [(str "scholar_results", VArr [article_json])]))
    | Page.PostSummarize _ =>
        Page.FetchResponse true (Ok (VObj [(str "summary", VStr (str "A summary."))]))
    end.


End Sample.

Example generalQuery_ex1 :
  Scholar.generalQuery
    (str "the " ++ [Scholar.QUOTE] ++ str "quantum" ++ [Scholar.QUOTE]
     ++ str "  computing of big data sets")
  = str "quantum computing data".
Proof. reflexivity. Qed.

Example split_ws_ex1 : split_ws (str " a  b ") = [str ""; str "a"; str "b"; str ""].
Proof. reflexivity. Qed.

Example trim_ex1 : trim (str "  a b  ") = str "a b".
Proof. reflexivity. Qed.

Example of_Z_ex1 : of_Z 404 = str "404".
Proof. reflexivity. Qed.

Example parse_ex1 :
  Cohere.parseQueriesFromResponse
    (str "Here are some:" ++ [LF] ++ str "1. deep learning" ++ [LF] ++ str "2.  graph theory ")
  = [str "deep learning"; str "graph theory"].
Proof. reflexivity. Qed.

Example parse_ex2 :
  Cohere.parseQueriesFromResponse
    (str "Here are some:" ++ [LF] ++ str " deep learning" ++ [LF] ++ [LF] ++ str "Based on")
  = [str "deep learning"].
Proof. reflexivity. Qed.

Example parse_ex3 :
  Cohere.parseQueriesFromResponse (str "1. 2. foo") = [str "2. foo"].
Proof. reflexivity. Qed.

Example or_str_ex1 : Scholar.or_str (Some (str "key")) (str "") = str "key".
Proof. reflexivity. Qed.

(* ------------------------------------------------------------------ *)
(** ** Facts about strings *)

Section StringFacts.

Lemma eqs_true (a b : jsstring) : eqs a b = true <-> a = b.
Proof.
  unfold eqs. destruct (list_eq_dec N.eq_dec a b); split; congruence.
Qed.

Lemma eqs_false (a b : jsstring) : eqs a b = false <-> a <> b.
Proof.
  unfold eqs. destruct (list_eq_dec N.eq_dec a b); split; congruence.
Qed.

Lemma eqs_refl (a : jsstring) : eqs a a = true.
Proof. now apply eqs_true. Qed.

Lemma dropWhile_app_stop (p : char16 -> bool) (a : jsstring) c (b : jsstring) :
  Forall (fun x => p x = true) a -> p c = false ->
  dropWhile p (a ++ c :: b) = c :: b.
Proof.
  induction 1 as [|x a Hx _ IH]; intros Hc; simpl.
  - now rewrite Hc.
  - rewrite Hx. now apply IH.
Qed.

Lemma takeWhile_app_stop (p : char16 -> bool) (a : jsstring) c (b : jsstring) :
  Forall (fun x => p x = true) a -> p c = false ->
  takeWhile p (a ++ c :: b) = a.
Proof.
  induction 1 as [|x a Hx _ IH]; intros Hc; simpl.
  - now rewrite Hc.
  - rewrite Hx. f_equal. now apply IH.
Qed.

Lemma takeWhile_dropWhile (p : char16 -> bool) (s : jsstring) :
  takeWhile p s ++ dropWhile p s = s.
Proof.
  induction s as [|c s IH]; simpl; [reflexivity|].
  destruct (p c); simpl; [now rewrite IH | reflexivity].
Qed.

Lemma takeWhile_all (p : char16 -> bool) (s : jsstring) :
  Forall (fun x => p x = true) (takeWhile p s).
Proof.
  induction s as [|c s IH]; simpl; [constructor|].
  destruct (p c) eqn:E; [now constructor | constructor].
Qed.

Lemma dropWhile_head (p : char16 -> bool) (s : jsstring) c r :
  dropWhile p s = c :: r -> p c = false.
Proof.
  induction s as [|x s IH]; simpl; [discriminate|].
  destruct (p x) eqn:E; [exact IH | now intros [= <- _]].
Qed.

Lemma dropWhile_all (p : char16 -> bool) (s : jsstring) :
  Forall (fun x => p x = true) s -> dropWhile p s = [].
Proof.
  induction 1 as [|x s Hx _ IH]; simpl; [reflexivity | now rewrite Hx].
Qed.

(** A string is trimmed when neither end is white space. *)
Lemma trim_head (s : jsstring) c r : trim s = c :: r -> is_space c = false.
Proof.
  unfold trim. intros H.
  destruct (dropWhile is_space s) as [|d t] eqn:E; [discriminate|].
  pose proof (dropWhile_head _ _ E) as Hd.
  simpl in H.
  destruct (dropWhile is_space (rev t ++ [d])) as [|e u] eqn:E2; [discriminate|].
  assert (Hlast : exists v, e :: u = v ++ [d]).
  { clear H. revert e u E2. induction (rev t) as [|x l IH]; simpl; intros e u E2.
    - rewrite Hd in E2. injection E2 as <- <-. now exists [].
    - destruct (is_space x); [now apply IH|].
      injection E2 as <- <-. now exists (x :: l). }
  destruct Hlast as [v Hv]. rewrite Hv, rev_app_distr in H. simpl in H.
  assert (c = d) as -> by congruence. exact Hd.
Qed.

Lemma trim_idempotent (s : jsstring) : trim (trim s) = trim s.
Proof.
  destruct (trim s) as [|c r] eqn:E; [reflexivity|].
  pose proof (trim_head _ E) as Hc.
  assert (Hl : exists d t, rev (c :: r) = d :: t /\ is_space d = false).
  { unfold trim in E. apply (f_equal (@rev _)) in E. rewrite rev_involutive in E.
    destruct (dropWhile is_space (rev (dropWhile is_space s))) as [|d t] eqn:E2.
    - simpl in E. destruct (rev r); discriminate.
    - exists d, t. split; [now rewrite <- E | now apply (dropWhile_head _ _ E2)]. }
  destruct Hl as (d & t & Hrev & Hd).
  unfold trim. simpl dropWhile at 2. rewrite Hc, Hrev. simpl. rewrite Hd.
  now rewrite <- Hrev, rev_involutive.
Qed.

Lemma startsWith_app (p s t : jsstring) :
  startsWith p s = true -> startsWith p (s ++ t) = true.
Proof.
  revert s. induction p as [|a p IH]; intros [|b s]; simpl; try easy.
  intros H. apply andb_true_iff in H as [-> H]. now apply IH.
Qed.

End StringFacts.

(* ------------------------------------------------------------------ *)
(** ** The broadened query of the search provider *)

Section Broadening.

Import Scholar.

(** Every piece of a split is free of white space. *)
Lemma split_ws_from_plain (s cur : jsstring) (b : bool) :
  Forall plain cur -> Forall (Forall plain) (split_ws_from b cur s).
Proof.
  revert cur b. induction s as [|c s IH]; intros cur b Hcur; simpl.
  - constructor; [|constructor]. now apply Forall_rev.
  - destruct (is_space c) eqn:E.
    + destruct b; [now apply IH|].
      constructor; [now apply Forall_rev | now apply IH].
    + apply IH. now constructor.
Qed.

(** The pieces are made of units of the string that was split. *)
Lemma split_ws_from_units (P : char16 -> Prop) (s cur : jsstring) (b : bool) :
  Forall P cur -> Forall P s -> Forall (Forall P) (split_ws_from b cur s).
Proof.
  revert cur b. induction s as [|c s IH]; intros cur b Hcur Hs; simpl.
  - constructor; [|constructor]. now apply Forall_rev.
  - inversion Hs as [|? ? Hc Hs']; subst.
    destruct (is_space c).
    + destruct b; [now apply IH|].
      constructor; [now apply Forall_rev | now apply IH].
    + apply IH; [now constructor | assumption].
Qed.

(** Splitting runs through a word without white space and keeps it in the
    current piece. *)
Lemma split_ws_from_word (k s cur : jsstring) (b : bool) :
  k <> [] -> Forall plain k ->
  split_ws_from b cur (k ++ s) = split_ws_from false (rev k ++ cur) s.
Proof.
  revert cur b. induction k as [|c k IH]; intros cur b Hne Hk; [now destruct Hne|].
  inversion Hk as [|? ? Hc Hk']; subst. simpl. unfold plain in Hc. rewrite Hc.
  destruct k as [|d k].
  - reflexivity.
  - rewrite IH by (congruence || assumption).
    simpl. now rewrite <- !app_assoc.
Qed.

Lemma split_ws_join (ks : list jsstring) :
  ks <> [] -> Forall (fun k => k <> [] /\ Forall plain k) ks ->
  split_ws (join (str " ") ks) = ks.
Proof.
  unfold split_ws. intros Hne H.
  assert (G : forall b, ks <> [] -> split_ws_from b [] (join (str " ") ks) = ks);
    [clear Hne | now apply G].
  induction H as [|k ks [Hk Hp] Hks IH]; intros b Hne; [now destruct Hne|].
  destruct ks as [|k' ks].
  - simpl. rewrite <- (app_nil_r k) at 1.
    rewrite split_ws_from_word by assumption.
    simpl. now rewrite app_nil_r, rev_involutive.
  - change (join (str " ") (k :: k' :: ks))
      with (k ++ 32%N :: join (str " ") (k' :: ks)).
    rewrite split_ws_from_word by assumption.
    simpl split_ws_from. rewrite app_nil_r, rev_involutive.
    f_equal. apply IH. congruence.
Qed.

Lemma strip_quotes_unquoted (s : jsstring) : Forall unquoted (strip_quotes s).
Proof.
  unfold strip_quotes. apply Forall_forall. intros c Hc.
  now apply filter_In in Hc as [_ Hc].
Qed.

Lemma strip_quotes_id (s : jsstring) : Forall unquoted s -> strip_quotes s = s.
Proof.
  unfold strip_quotes. induction 1 as [|c s Hc _ IH]; simpl; [reflexivity|].
  unfold unquoted in Hc. rewrite Hc. now f_equal.
Qed.

Lemma join_units (P : char16 -> Prop) (ks : list jsstring) :
  P 32%N -> Forall (Forall P) ks -> Forall P (join (str " ") ks).
Proof.
  intros Hsp. induction 1 as [|k ks Hk Hks IH]; simpl; [constructor|].
  destruct ks as [|k' ks]; [assumption|].
  apply Forall_app. split; [assumption|].
  change (str " " ++ join (str " ") (k' :: ks)) with (32%N :: join (str " ") (k' :: ks)).
  now constructor.
Qed.

(** What the keywords of any query look like. *)
Lemma keywords_shape (q : jsstring) :
  length (keywords q) <= 3 /\
  Forall (fun k => 3 < length k /\ Forall plain k /\ Forall unquoted k) (keywords q).
Proof.
  unfold keywords. split.
  - rewrite length_firstn. lia.
  - set (ws := split_ws (strip_quotes q)).
    assert (H : Forall (fun k => Forall plain k /\ Forall unquoted k) ws).
    { apply Forall_forall. intros k Hk. split.
      - pose proof (@split_ws_from_plain (strip_quotes q) [] false (Forall_nil _)) as H.
        rewrite Forall_forall in H. now apply H.
      - pose proof (@split_ws_from_units unquoted (strip_quotes q) [] false
                      (Forall_nil _) (strip_quotes_unquoted q)) as H.
        rewrite Forall_forall in H. now apply H. }
    apply Forall_forall. intros k Hk.
    assert (Hin : In k (filter (fun w => Nat.ltb 3 (length w)) ws)).
    { rewrite <- (firstn_skipn 3). apply in_or_app. now left. }
    apply filter_In in Hin as [Hin Hlen]. apply Nat.ltb_lt in Hlen.
    rewrite Forall_forall in H. destruct (H k Hin). now repeat split.
Qed.

Lemma keywords_fixed (ks : list jsstring) :
  ks <> [] -> length ks <= 3 ->
  Forall (fun k => 3 < length k /\ Forall plain k /\ Forall unquoted k) ks ->
  keywords (join (str " ") ks) = ks.
Proof.
  intros Hne Hlen H. unfold keywords.
  rewrite strip_quotes_id.
  - rewrite split_ws_join; [|assumption|].
    + assert (Hf : filter (fun w => Nat.ltb 3 (length w)) ks = ks).
      { clear Hne Hlen. induction H as [|k ks [Hk _] _ IH]; simpl; [reflexivity|].
        apply Nat.ltb_lt in Hk. rewrite Hk. now f_equal. }
      rewrite Hf. now apply firstn_all2.
    + eapply Forall_impl; [|exact H]. intros k (Hk & Hp & _). split; [|assumption].
      destruct k; simpl in Hk; [lia | congruence].
  - apply join_units; [reflexivity|].
    eapply Forall_impl; [|exact H]. now intros k (_ & _ & Hu).
Qed.

Lemma generalQuery_idempotent (q : jsstring) :
  generalQuery (generalQuery q) = generalQuery q.
Proof.
  unfold generalQuery at 1 3.
  destruct (keywords_shape q) as [Hlen H].
  unfold generalQuery.
  destruct (keywords q) as [|k ks] eqn:E; [reflexivity|].
  now rewrite keywords_fixed.
Qed.

End Broadening.

(* ------------------------------------------------------------------ *)
(** ** searchArticles *)

Section Search.

Import Scholar.

Variables (h : ScholarHelper) (net : Network).

(** One level of the method. *)
Lemma searchArticles_step (fuel : nat) (log : list Request) (q : jsstring) (page : Z) :
  searchArticles (S fuel) h net log q page =
    match apiKey h with
    | [] => Some (synthetic q (Msg missing_key_message), log)
    | _ :: _ =>
        let r := mkRequest h q page in
        match net log r with
        | Rejected e =>
            Some (synthetic q (message_of e unknown_search_error), log ++ [r])
        | Response status None => Some (answer q (net log r), log ++ [r])
        | Response status (Some data) =>
            if negb (Z.eqb status 200)
            then Some (synthetic q (Msg (status_message status)), log ++ [r])
            else
              match data_scholar_results data, keywords q with
              | Some [], _ :: _ =>
                  if negb (eqs (generalQuery q) q)
                  then searchArticles fuel h net (log ++ [r]) (generalQuery q) page
                  else Some (answer q (net log r), log ++ [r])
              | _, _ => Some (answer q (net log r), log ++ [r])
              end
        end
    end.
Proof.
  simpl. destruct (apiKey h); [reflexivity|].
  destruct (net log (mkRequest h q page)) as [status [data|]|e]; simpl;
    try reflexivity.
  - destruct (negb (Z.eqb status 200)); [reflexivity|].
    destruct (data_scholar_results data) as [[|x l]|];
      try reflexivity; destruct (keywords q); reflexivity.
  - now destruct (negb (Z.eqb status 200)).
Qed.

(** The call for a query that is its own broadened query, or has no keyword,
    makes one request and answers it. *)
Lemma searchArticles_settled (fuel : nat) (log : list Request) (q : jsstring) (page : Z) :
  apiKey h <> [] ->
  keywords q = [] \/ generalQuery q = q ->
  searchArticles (S fuel) h net log q page
  = Some (answer q (net log (mkRequest h q page)), log ++ [mkRequest h q page]).
Proof.
  intros Hkey Hq. simpl.
  destruct (apiKey h) as [|c k] eqn:E; [now destruct Hkey|].
  unfold answer.
  destruct (net log (mkRequest h q page)) as [status [data|]|e]; try reflexivity;
    (destruct (negb (Z.eqb status 200)); [reflexivity|]); [|reflexivity].
  destruct (data_scholar_results data) as [[|r l]|]; try reflexivity.
  destruct Hq as [-> | Hq]; [reflexivity|].
  destruct (keywords q); [reflexivity|].
  now rewrite Hq, eqs_refl.
Qed.

(** The call always returns when it may nest once. *)
Lemma searchArticles_returns (fuel : nat) (log : list Request) (q : jsstring) (page : Z) :
  2 <= fuel -> exists r log', searchArticles fuel h net log q page = Some (r, log').
Proof.
  intros Hfuel. destruct fuel as [|[|fuel]]; try lia. clear Hfuel.
  destruct (apiKey h) as [|c k] eqn:E.
  - simpl. rewrite E. eauto.
  - assert (Hkey : apiKey h <> []) by (rewrite E; discriminate).
    rewrite searchArticles_step, E. cbv zeta.
    destruct (net log (mkRequest h q page)) as [status [data|]|e]; eauto.
    destruct (negb (Z.eqb status 200)); [eauto|].
    destruct (data_scholar_results data) as [[|r l]|]; eauto.
    destruct (keywords q) eqn:Ek; [eauto|].
    destruct (negb (eqs (generalQuery q) q)); [|eauto].
    rewrite searchArticles_settled; eauto.
    right. apply generalQuery_idempotent.
Qed.

(** The call whose first request succeeds with an empty list. *)
Lemma searchArticles_empty (fuel : nat) (log : list Request) (q : jsstring)
    (page : Z) (data : ScrapingDogResponse) :
  apiKey h <> [] ->
  net log (mkRequest h q page) = Response 200 (Some data) ->
  data_scholar_results data = Some [] ->
  searchArticles (S (S fuel)) h net log q page =
    if match keywords q with [] => false | _ :: _ => negb (eqs (generalQuery q) q) end
    then Some (answer (generalQuery q)
                 (net (log ++ [mkRequest h q page]) (mkRequest h (generalQuery q) page)),
               log ++ [mkRequest h q page; mkRequest h (generalQuery q) page])
    else Some ({| search_details := data_search_details data;
                  scholar_results := Some [];
                  error := None |}, log ++ [mkRequest h q page]).
Proof.
  intros Hkey Hnet Hres.
  rewrite searchArticles_step. cbv zeta.
  destruct (apiKey h) as [|c k] eqn:E; [now destruct Hkey|].
  rewrite Hnet. simpl negb. cbv iota. rewrite Hres.
  destruct (keywords q) eqn:Ek; [now unfold answer; simpl; rewrite Hres|].
  destruct (negb (eqs (generalQuery q) q)); [|now unfold answer; simpl; rewrite Hres].
  rewrite searchArticles_settled.
  - now rewrite <- app_assoc.
  - rewrite E. discriminate.
  - right. apply generalQuery_idempotent.
Qed.

(** C1. When the first search succeeds with a result list that is present
    but empty, [searchArticles] makes exactly one further request if the
    derived keyword string (quotes stripped, split on white space, words
    longer than 3 units kept, the first 3 taken, joined by single spaces)
    differs from the query: the request is for that string at the same page,
    and what it gives is returned directly.  It makes no further request if
    the derived string equals the query or no word qualifies.  There is never
    a third request. *)
Theorem searchArticles_one_retry (fuel : nat) (log : list Request) (q : jsstring)
    (page : Z) (data : ScrapingDogResponse) :
  2 <= fuel ->
  apiKey h <> [] ->
  net log {| req_api_key := apiKey h; req_query := q; req_language := language h;
             req_page := page; req_results := resultsPerPage h |}
  = Response 200 (Some data) ->
  data_scholar_results data = Some [] ->
  let request x :=
    {| req_api_key := apiKey h; req_query := x; req_language := language h;
       req_page := page; req_results := resultsPerPage h |} in
  let words :=
    firstn 3 (filter (fun w => Nat.ltb 3 (length w))
                (split_ws (filter (fun c => negb (N.eqb c 39 || N.eqb c 34)) q))) in
  let derived := join (str " ") words in
  searchArticles fuel h net log q page =
    if match words with
       | [] => false
       | _ :: _ => if list_eq_dec N.eq_dec derived q then false else true
       end
    then
      Some (match net (log ++ [request q]) (request derived) with
            | Rejected e =>
                {| search_details :=
                     Some {| query := derived; number_of_results := str "0 results" |};
                   scholar_results := Some [];
                   error := Some (match e with
                                  | ErrorObj m => m
                                  | NonError => Msg (str "Unknown error searching for articles")
                                  end) |}
            | Response status body =>
                if Z.eqb status 200 then
                  match body with
                  | Some d =>
                      {| search_details := data_search_details d;
                         scholar_results := Some (match data_scholar_results d with
                                                  | Some l => l
                                                  | None => []
                                                  end);
                         error := None |}
                  | None =>
                      {| search_details :=
                           Some {| query := derived; number_of_results := str "0 results" |};
                         scholar_results := Some [];
                         error := Some EngineMsg |}
                  end
                else
                  {| search_details :=
                       Some {| query := derived; number_of_results := str "0 results" |};
                     scholar_results := Some [];
                     error := Some (Msg (str "Request failed with status code: "
                                         ++ of_Z status)) |}
            end,
            log ++ [request q; request derived])
    else Some ({| search_details := data_search_details data;
                  scholar_results := Some [];
                  error := None |}, log ++ [request q]).
Proof.
  intros Hfuel Hkey Hnet Hres request words derived.
  destruct fuel as [|[|fuel]]; try lia. clear Hfuel.
  rewrite (@searchArticles_empty fuel log q page data Hkey Hnet Hres).
  change (keywords q) with words. change (generalQuery q) with derived.
  change (mkRequest h q page) with (request q).
  change (mkRequest h derived page) with (request derived).
  destruct words as [|w ws]; [reflexivity|].
  unfold eqs. destruct (list_eq_dec N.eq_dec derived q); [reflexivity|].
  cbn [negb]. f_equal. f_equal. unfold answer.
  destruct (net (log ++ [request q]) (request derived)) as [status [d|]|e].
  - now destruct (Z.eqb status 200).
  - now destruct (Z.eqb status 200).
  - now destruct e.
Qed.

Lemma answer_failed (q : jsstring) (o : HttpOutcome) :
  failed o = true -> exists m, answer q o = synthetic q m.
Proof.
  destruct o as [status [data|]|e]; simpl; intros H.
  - rewrite H. eauto.
  - rewrite H. eauto.
  - eauto.
Qed.

Lemma answer_failure (q : jsstring) (o : HttpOutcome) (c : cause) :
  failure o c ->
  answer q o
  = synthetic q (match c with
                 | NoCredential => Msg missing_key_message
                 | BadStatus status => Msg (status_message status)
                 | Rejection e => message_of e unknown_search_error
                 end).
Proof.
  intros [status body Hs | e]; simpl; [|reflexivity].
  apply Z.eqb_neq in Hs. rewrite Hs. now destruct body.
Qed.

(** C6, as the code has it.  Whenever a request of [searchArticles] fails
    (missing credential, rejection, or a status other than 200), the call
    returns, without throwing, the synthetic response: the count "0 results",
    an empty result list, the query of the request that failed (the original
    query when the credential is missing or the first request fails, the
    broadened query when the retry fails) and an error text that says what
    went wrong: that the key is not configured, the status that came back,
    or the message of the error that was thrown. *)
Theorem searchArticles_failure (fuel : nat) (log : list Request) (q : jsstring)
    (page : Z) (qf : jsstring) (c : cause) (log' : list Request) :
  2 <= fuel ->
  fails h net log q page qf c log' ->
  searchArticles fuel h net log q page
  = Some ({| search_details := Some {| query := qf; number_of_results := str "0 results" |};
             scholar_results := Some [];
             error :=
               Some (match c with
                     | NoCredential =>
                         Msg (str "ScrapingDog API key is not configured. Please set SCRAPINGDOG_KEY in .env.local")
                     | BadStatus status =>
                         Msg (str "Request failed with status code: " ++ of_Z status)
                     | Rejection (ErrorObj m) => m
                     | Rejection NonError => Msg (str "Unknown error searching for articles")
                     end) |}, log').
Proof.
  intros Hfuel Hf. destruct fuel as [|[|fuel]]; try lia. clear Hfuel.
  destruct Hf as [Hkey | c Hkey Hfail | data c Hkey Hnet Hres Hk Hq Hfail].
  - simpl. now rewrite Hkey.
  - assert (Hans : searchArticles (S (S fuel)) h net log q page
                   = Some (answer q (net log (mkRequest h q page)), log ++ [mkRequest h q page])).
    { rewrite searchArticles_step. cbv zeta.
      destruct (apiKey h) as [|x k] eqn:E; [now destruct Hkey|].
      unfold answer.
      destruct (net log (mkRequest h q page)) as [status body|e]; [|reflexivity].
      inversion Hfail as [status' body' Hs|]; subst.
      apply Z.eqb_neq in Hs. rewrite Hs. now destruct body. }
    rewrite Hans, (answer_failure q Hfail).
    now destruct c as [|status|[m|]].
  - rewrite (@searchArticles_empty fuel log q page data) by assumption.
    destruct (keywords q); [now destruct Hk|].
    apply eqs_false in Hq. rewrite Hq. simpl negb. cbv iota.
    rewrite (answer_failure (generalQuery q) Hfail).
    now destruct c as [|status|[m|]].
Qed.

End Search.

(** C10. The keyword broadening of [searchArticles] (quotes stripped, split on
    white space, words longer than 3 units kept, the first 3 taken, joined by
    single spaces) is idempotent: applied to its own output it returns that
    output unchanged.  Hence a search for a broadened query never broadens
    again: it makes at most one request. *)
Theorem broadening_idempotent (q : jsstring) :
  Scholar.generalQuery (Scholar.generalQuery q) = Scholar.generalQuery q
  /\ (forall fuel h net log page,
        exists r log',
          Scholar.searchArticles (S fuel) h net log (Scholar.generalQuery q) page
          = Some (r, log')
          /\ length log' <= S (length log)).
Proof.
  split; [apply generalQuery_idempotent|].
  intros fuel h net log page.
  destruct (Scholar.apiKey h) as [|c k] eqn:E.
  - simpl. rewrite E. eexists. eexists. split; [reflexivity | lia].
  - rewrite searchArticles_settled.
    + eexists. eexists. split; [reflexivity|]. rewrite length_app. simpl. lia.
    + rewrite E. discriminate.
    + right. apply generalQuery_idempotent.
Qed.

Lemma searchArticles_one_retry_witness :
  Scholar.searchArticles 2 Sample.helper (Sample.net_then Sample.found_nothing) [] Sample.q1 0
  = Some ({| Scholar.search_details := None;
             Scholar.scholar_results := Some [];
             Scholar.error := None |},
          [{| Scholar.req_api_key := str "key"; Scholar.req_query := Sample.q1;
              Scholar.req_language := str "en"; Scholar.req_page := 0;
              Scholar.req_results := 20 |};
           {| Scholar.req_api_key := str "key"; Scholar.req_query := str "quantum computing";
              Scholar.req_language := str "en"; Scholar.req_page := 0;
              Scholar.req_results := 20 |}]).
Proof.
  refine (@searchArticles_one_retry Sample.helper (Sample.net_then Sample.found_nothing) 2 []
            Sample.q1 0%Z Sample.empty_data _ _ _ _).
  - lia.
  - vm_compute. discriminate.
  - reflexivity.
  - reflexivity.
Defined.

(** The retry for "the quantum computing" is rejected with a network error:
    the response that comes back names the broadened query, not the query
    that [searchArticles] was called with. *)
Lemma searchArticles_failure_other_query :
  exists r log',
    Scholar.fails Sample.helper (Sample.net_then Sample.network_error) [] Sample.q0 0
      (str "quantum computing") (Scholar.Rejection (ErrorObj (Msg (str "Network Error")))) log'
    /\ Scholar.searchArticles 2 Sample.helper (Sample.net_then Sample.network_error) [] Sample.q0 0
       = Some (r, log')
    /\ Scholar.search_details r
       <> Some {| Scholar.query := Sample.q0;
                  Scholar.number_of_results := str "0 results" |}.
Proof.
  eexists. eexists. split; [|split].
  - apply (@Scholar.fails_retry Sample.helper (Sample.net_then Sample.network_error) [] Sample.q0 0%Z
             Sample.empty_data); try reflexivity; try (vm_compute; discriminate).
    apply Scholar.failure_rejected.
  - vm_compute. reflexivity.
  - vm_compute. discriminate.
Qed.

Lemma searchArticles_failure_witness :
  Scholar.searchArticles 2 Sample.helper (Sample.net_then Sample.network_error) [] Sample.q0 0
  = Some ({| Scholar.search_details :=
               Some {| Scholar.query := str "quantum computing";
                       Scholar.number_of_results := str "0 results" |};
             Scholar.scholar_results := Some [];
             Scholar.error := Some (Msg (str "Network Error")) |},
          [Scholar.mkRequest Sample.helper Sample.q0 0;
           Scholar.mkRequest Sample.helper (str "quantum computing") 0]).
Proof.
  refine (@searchArticles_failure Sample.helper (Sample.net_then Sample.network_error) 2 []
            Sample.q0 0%Z (str "quantum computing")
            (Scholar.Rejection (ErrorObj (Msg (str "Network Error")))) _ _ _).
  - lia.
  - apply (@Scholar.fails_retry Sample.helper (Sample.net_then Sample.network_error) [] Sample.q0 0%Z
             Sample.empty_data); try reflexivity; try (vm_compute; discriminate).
    apply Scholar.failure_rejected.
Defined.

(* ------------------------------------------------------------------ *)
(** ** searchWithAdvancedQuery *)

(** C7. [searchWithAdvancedQuery] searches for the single interest itself,
    for "A AND B" when there are two, and for the first two joined by AND, in
    parentheses, AND the remaining ones joined by OR, in parentheses, when
    there are three or more; the interests a, b, c, d give exactly
    "(a AND b) AND (c OR d)". *)
Theorem advancedQuery_shape :
  (forall a, Scholar.advancedQuery [a] = a)
  /\ (forall a b, Scholar.advancedQuery [a; b] = a ++ str " AND " ++ b)
  /\ (forall a b c rest,
        Scholar.advancedQuery (a :: b :: c :: rest)
        = str "(" ++ (a ++ str " AND " ++ b) ++ str ") AND ("
          ++ join (str " OR ") (c :: rest) ++ str ")")
  /\ Scholar.advancedQuery [str "a"; str "b"; str "c"; str "d"]
     = str "(a AND b) AND (c OR d)"
  /\ (forall fuel h net log interests page,
        Scholar.searchWithAdvancedQuery fuel h net log interests page
        = Scholar.searchArticles fuel h net log (Scholar.advancedQuery interests) page).
Proof.
  repeat split; reflexivity.
Qed.

(* ------------------------------------------------------------------ *)
(** ** Missing credentials *)




(* ------------------------------------------------------------------ *)
(** ** parseQueriesFromResponse *)

Section Parser.

Import Cohere.

Lemma trim_infix (s : jsstring) : exists a b, s = a ++ trim s ++ b.
Proof.
  unfold trim.
  exists (takeWhile is_space s),
         (rev (takeWhile is_space (rev (dropWhile is_space s)))).
  rewrite <- rev_app_distr, takeWhile_dropWhile, rev_involutive.
  now rewrite takeWhile_dropWhile.
Qed.

Lemma trim_dropWhile (s : jsstring) : trim (dropWhile is_space s) = trim s.
Proof.
  unfold trim. f_equal. f_equal. f_equal.
  induction s as [|c s IH]; simpl; [reflexivity|].
  destruct (is_space c) eqn:E; [exact IH | simpl; now rewrite E].
Qed.

Lemma split_nl_from_infix (s cur line : jsstring) :
  In line (split_nl_from cur s) -> exists a b, rev cur ++ s = a ++ line ++ b.
Proof.
  revert cur. induction s as [|c s IH]; intros cur; simpl.
  - intros [<- | []]. exists [], []. now rewrite app_nil_r.
  - destruct (is_nl c).
    + intros [<- | H].
      * now exists [], (c :: s).
      * destruct (IH [] H) as (a & b & E). simpl in E.
        exists (rev cur ++ c :: a), b. rewrite E. now rewrite <- app_assoc.
    + intros H. destruct (IH (c :: cur) H) as (a & b & E).
      exists a, b. rewrite <- E. simpl. now rewrite <- app_assoc.
Qed.

Lemma numbered_at_shape (s m : jsstring) :
  numbered_at s = Some m ->
  exists d rest, m = d ++ DOT :: rest /\ d <> [] /\ Forall (fun c => is_digit c = true) d.
Proof.
  unfold numbered_at.
  pose proof (takeWhile_all is_digit s) as Hd.
  destruct (takeWhile is_digit s) as [|x d]; [discriminate|].
  destruct (dropWhile is_digit s) as [|c r]; [discriminate|].
  destruct (N.eqb c DOT) eqn:Ec; [|discriminate].
  apply N.eqb_eq in Ec. subst c.
  destruct (ws_then_line r) as [[[w cap] rest]|]; [|discriminate].
  intros [= <-]. exists (x :: d), (w ++ cap). repeat split; [discriminate | assumption].
Qed.

Lemma match_numbered_shape (s : jsstring) (skip : nat) :
  Forall (fun m => exists d rest,
              m = d ++ DOT :: rest /\ d <> [] /\ Forall (fun c => is_digit c = true) d)
         (match_numbered skip s).
Proof.
  revert skip. induction s as [|c s IH]; intros skip; [constructor|].
  cbn [match_numbered]. destruct skip as [|k]; [|apply IH].
  destruct (numbered_at (c :: s)) as [m|] eqn:E; [|apply IH].
  constructor; [now apply numbered_at_shape with (s := c :: s) | apply IH].
Qed.

Lemma strip_marker_shape (d rest : jsstring) :
  d <> [] -> Forall (fun c => is_digit c = true) d ->
  trim (strip_marker (d ++ DOT :: rest)) = trim rest.
Proof.
  intros Hne Hd. unfold strip_marker.
  rewrite takeWhile_app_stop, dropWhile_app_stop by (assumption || reflexivity).
  destruct d; [now destruct Hne|].
  rewrite N.eqb_refl. apply trim_dropWhile.
Qed.

(** A marker in the text is a match of the numbered-item expression. *)
Lemma marker_is_numbered (s : jsstring) :
  begins_with_marker s = true -> numbered_at s <> None.
Proof.
  unfold begins_with_marker, numbered_at.
  destruct (takeWhile is_digit s) as [|x d]; [discriminate|].
  destruct (dropWhile is_digit s) as [|c [|e r]]; try discriminate.
  intros H. apply andb_true_iff in H as [Hc He].
  rewrite Hc. apply N.eqb_eq in He. subst e.
  cbn [ws_then_line]. change (is_space 32%N) with true. cbv iota.
  destruct (ws_then_line r) as [[[w cap] rest]|]; discriminate.
Qed.

Lemma marker_app (s t : jsstring) :
  begins_with_marker s = true -> begins_with_marker (s ++ t) = true.
Proof.
  unfold begins_with_marker. intros H.
  pose proof (takeWhile_dropWhile is_digit s) as Hs.
  pose proof (takeWhile_all is_digit s) as Hd.
  destruct (takeWhile is_digit s) as [|x d] eqn:Et; [discriminate|].
  destruct (dropWhile is_digit s) as [|c [|e r]] eqn:Ed; try discriminate.
  pose proof (dropWhile_head _ _ Ed) as Hc.
  assert (Hst : s ++ t = (x :: d) ++ c :: e :: r ++ t)
    by (now rewrite <- Hs, <- app_assoc).
  rewrite Hst, takeWhile_app_stop, dropWhile_app_stop by assumption.
  exact H.
Qed.

Lemma no_match_no_marker (a y : jsstring) :
  match_numbered 0 (a ++ y) = [] -> begins_with_marker y = false.
Proof.
  induction a as [|c a IH]; simpl app.
  - intros H. destruct (begins_with_marker y) eqn:E; [|reflexivity].
    destruct y as [|c y]; [discriminate|].
    apply marker_is_numbered in E.
    cbn [match_numbered] in H.
    destruct (numbered_at (c :: y)); [discriminate | now destruct E].
  - intros H. cbn [match_numbered] in H.
    destruct (numbered_at (c :: a ++ y)); [discriminate | now apply IH].
Qed.

Lemma no_match_infix (r a e b : jsstring) :
  match_numbered 0 r = [] -> r = a ++ e ++ b -> begins_with_marker e = false.
Proof.
  intros H ->. apply no_match_no_marker in H.
  destruct (begins_with_marker e) eqn:E; [|reflexivity].
  now rewrite (marker_app e b E) in H.
Qed.

(** C3, as the code has it.  For every raw response, [parseQueriesFromResponse]
    returns a non-empty array of trimmed strings.  When the response holds no
    numbered item, no element begins with an enumeration marker "<int>. ";
    when it holds numbered items, each element is the text that follows the
    first "<int>." of its item, trimmed, so that a second marker written
    directly after the first one stays at the start of the element. *)
Theorem parseQueriesFromResponse_shape (response : jsstring) :
  parseQueriesFromResponse response <> []
  /\ Forall (fun q => trim q = q) (parseQueriesFromResponse response)
  /\ match match_numbered 0 response with
     | [] => Forall (fun q => begins_with_marker q = false)
                    (parseQueriesFromResponse response)
     | (_ :: _) as items =>
         Forall2 (fun item q => exists d rest,
                      item = d ++ DOT :: rest /\ d <> []
                      /\ Forall (fun c => is_digit c = true) d /\ q = trim rest)
                 items (parseQueriesFromResponse response)
     end.
Proof.
  unfold parseQueriesFromResponse.
  pose proof (match_numbered_shape response 0) as Hshape.
  destruct (match_numbered 0 response) as [|m ms] eqn:Em.
  - set (lines := filter _ _).
    assert (Hlines : forall l, In l lines ->
                       trim l = l /\ exists a b, response = a ++ l ++ b).
    { intros l Hl. apply filter_In in Hl as [Hl _].
      apply in_map_iff in Hl as (raw & <- & Hraw). split; [apply trim_idempotent|].
      apply split_nl_from_infix in Hraw as (a & b & E). simpl in E.
      destruct (trim_infix raw) as (a' & b' & E').
      exists (a ++ a'), (b' ++ b). rewrite E, E' at 1. now rewrite <- !app_assoc. }
    destruct lines as [|l ls].
    + repeat split; [discriminate | | ].
      * constructor; [apply trim_idempotent | constructor].
      * constructor; [|constructor].
        destruct (trim_infix response) as (a & b & E).
        now apply (@no_match_infix response a (trim response) b).
    + repeat split; [discriminate | | ].
      * apply Forall_forall. intros q Hq. now apply Hlines.
      * apply Forall_forall. intros q Hq.
        destruct (Hlines q Hq) as (_ & a & b & E).
        now apply (@no_match_infix response a q b).
  - repeat split; [discriminate | | ].
    + apply Forall_forall. intros q Hq.
      apply in_map_iff in Hq as (item & <- & _). apply trim_idempotent.
    + clear Em. revert Hshape. generalize (m :: ms). intros items Hshape.
      induction Hshape as [|item items (d & rest & -> & Hne & Hd) _ IH];
        simpl; constructor; [|exact IH].
      exists d, rest. repeat split; try assumption.
      now apply strip_marker_shape.
Qed.

(** The item "1. 2. foo" loses its first marker only: the element that comes
    back begins with the marker "2. ". *)
Lemma parseQueriesFromResponse_keeps_marker :
  parseQueriesFromResponse (str "1. 2. foo") = [str "2. foo"]
  /\ ~ Forall (fun q => begins_with_marker q = false)
         (parseQueriesFromResponse (str "1. 2. foo")).
Proof.
  split; [reflexivity|].
  intros H. inversion H as [|? ? Hq _]. discriminate Hq.
Qed.

End Parser.

(* ------------------------------------------------------------------ *)
(** ** The orchestrator *)

(** C8. When the query generator answers with an empty list of queries, the
    run ends at the no-queries terminal: the page shows the title
    "No Queries Generated" with the summary that asks for different
    interests, loading is cleared, and the only call made is the one to the
    query generator: neither the search provider nor the summarizer is
    called. *)
Theorem no_queries_terminal (fetch : Page.Fetch) (r1 r2 : nat) (st : Page.PageState)
    (ok : bool) (cohereData : value) :
  Page.interests st <> [] ->
  fetch [] (Page.PostCohere (Page.interests st)) = Page.FetchResponse ok (Ok cohereData) ->
  Val.get cohereData (str "queries") = Ok (VArr []) ->
  Page.generateArticle fetch r1 r2 st
  = ({| Page.interests := Page.interests st;
        Page.article :=
          Some {| Page.title := VStr (str "No Queries Generated");
                  Page.summary :=
                    VStr (str "We couldn't generate any queries based on your interests. Please try with different interests.");
                  Page.link := VUndefined;
                  Page.originalTitle := VUndefined |};
        Page.loading := false |},
     [Page.PostCohere (Page.interests st)]).
Proof.
  intros Hne Hfetch Hq. unfold Page.generateArticle, Page.run.
  destruct (Page.interests st) as [|i rest] eqn:E; [now destruct Hne|].
  now rewrite Hfetch, Hq.
Qed.

Lemma no_queries_terminal_witness :
  Page.generateArticle Sample.fetch_no_queries 0 0 Sample.page0
  = ({| Page.interests := [str "AI"; str "climate"];
        Page.article :=
          Some {| Page.title := VStr (str "No Queries Generated");
                  Page.summary :=
                    VStr (str "We couldn't generate any queries based on your interests. Please try with different interests.");
                  Page.link := VUndefined;
                  Page.originalTitle := VUndefined |};
        Page.loading := false |},
     [Page.PostCohere [str "AI"; str "climate"]]).
Proof.
  refine (@no_queries_terminal Sample.fetch_no_queries 0 0 Sample.page0 true
            (VObj [(str "queries", VArr [])]) _ _ _).
  - discriminate.
  - reflexivity.
  - reflexivity.
Defined.

(* ------------------------------------------------------------------ *)
(** ** The title and the content of the summarizer *)

(** A text that the guard lets through is the summary. *)
Lemma guardSummary_usable (title t : jsstring) :
  LLM.usable t = true -> LLM.guardSummary title (VStr t) = Ok t.
Proof.
  unfold LLM.usable, LLM.guardSummary. intros H. apply andb_true_iff in H as [H1 H2].
  destruct t as [|c t]; [discriminate|].
  cbn [Val.truthy negb]. apply negb_true_iff in H1, H2. now rewrite H1, H2.
Qed.

(** The one call that [summarizeArticle] makes is the one for the text made
    of the title and the content: nothing else of the client is looked at. *)
Lemma summarizeArticle_request (create create' : LLM.Responses) (input : jsstring) :
  create (LLM.prompt (fst (LLM.extractTitle input)) (snd (LLM.extractTitle input)))
  = create' (LLM.prompt (fst (LLM.extractTitle input)) (snd (LLM.extractTitle input))) ->
  LLM.summarizeArticle create input = LLM.summarizeArticle create' input.
Proof.
  unfold LLM.summarizeArticle.
  destruct (LLM.extractTitle input) as [title content]. cbn [fst snd].
  now intros ->.
Qed.

(** A usable text that comes back as [output_text] is the summary, next to
    the title taken from the input. *)
Lemma summarizeArticle_output_text (create : LLM.Responses) (input r : jsstring) :
  create (LLM.prompt (fst (LLM.extractTitle input)) (snd (LLM.extractTitle input)))
  = Ok (VObj [(str "output_text", VStr r)]) ->
  LLM.usable r = true ->
  LLM.summarizeArticle create input
  = {| LLM.title := fst (LLM.extractTitle input); LLM.summary := r; LLM.error := None |}.
Proof.
  unfold LLM.summarizeArticle.
  destruct (LLM.extractTitle input) as [title content]. cbn [fst snd].
  intros -> Hus. cbn [bind].
  assert (Hex : LLM.extractSummary (VObj [(str "output_text", VStr r)]) = Ok (VStr r)).
  { destruct r as [|c r]; [discriminate | reflexivity]. }
  rewrite Hex. cbn [bind]. now rewrite (@guardSummary_usable title r Hus).
Qed.

Section Title.

Import LLM.

Ltac split_ands :=
  repeat match goal with
         | H : _ && _ = true |- _ => apply andb_true_iff in H; destruct H
         end.

Ltac same_ci_eqs :=
  repeat match goal with
         | H : same_ci ?p ?c = true |- _ =>
             apply N.eqb_eq in H;
             let v := eval vm_compute in (upper_ascii p) in
             change (upper_ascii p) with v in H
         end.

Ltac open_marker :=
  change marker with [116; 105; 116; 108; 101; 58]%N in *;
  cbn [starts_ci app] in *.

Lemma truncate_short (s : jsstring) : length s <= max_length -> truncate s = s.
Proof.
  intros H. unfold truncate. apply Nat.ltb_ge in H. now rewrite H.
Qed.

(** The tail of the expression on a line that is not blank. *)
Lemma ws_then_line_title (x y : jsstring) :
  Forall (fun c => is_nl c = false) x ->
  dropWhile is_space x <> [] ->
  ws_then_line (x ++ LF :: y)
  = Some (takeWhile is_space x, dropWhile is_space x, LF :: y).
Proof.
  induction 1 as [|c x Hc Hx IH]; intros Hne; [now destruct Hne|].
  simpl app. cbn [ws_then_line takeWhile dropWhile] in *.
  destruct (is_space c) eqn:E.
  - now rewrite (IH Hne).
  - assert (Hall : Forall (fun u => negb (is_nl u) = true) x).
    { eapply Forall_impl; [|exact Hx]. now intros u ->. }
    rewrite Hc. cbn [negb].
    rewrite takeWhile_app_stop, dropWhile_app_stop by (assumption || reflexivity).
    reflexivity.
Qed.

Lemma trim_nonempty (x : jsstring) : trim x <> [] -> dropWhile is_space x <> [].
Proof.
  unfold trim. intros H E. apply H. now rewrite E.
Qed.

Lemma skipn_marker (m t : jsstring) : length m = 6 -> skipn 6 (m ++ t) = t.
Proof.
  intros H. do 6 (destruct m as [|? m]; [discriminate|]).
  destruct m; [reflexivity | discriminate].
Qed.

Lemma starts_ci_app (p s t : jsstring) :
  starts_ci p s = true -> starts_ci p (s ++ t) = true.
Proof.
  revert s. induction p as [|a p IH]; intros [|b s]; simpl; try easy.
  intros H. apply andb_true_iff in H as [-> H]. now apply IH.
Qed.

(** The marker has no border: a match cannot begin before a marker and end
    inside it. *)
Lemma starts_ci_overlap (p m t : jsstring) :
  p <> [] -> starts_ci marker p = false ->
  starts_ci marker m = true -> length m = 6 ->
  starts_ci marker (p ++ m ++ t) = false.
Proof.
  intros Hne Hp Hm Hlen.
  do 6 (destruct m as [|? m]; [discriminate|]).
  destruct m; [|discriminate]. clear Hlen.
  destruct (starts_ci marker (p ++ _)) eqn:E; [exfalso | reflexivity].
  destruct p as [|u1 [|u2 [|u3 [|u4 [|u5 [|u6 p]]]]]]; [now destruct Hne| | | | | |];
    open_marker.
  1-5: split_ands; same_ci_eqs; congruence.
  congruence.
Qed.

Lemma title_search_skip (pre m t : jsstring) :
  mentions_title pre = false ->
  starts_ci marker m = true -> length m = 6 ->
  title_search (pre ++ m ++ t)
  = match title_search (m ++ t) with
    | Some (before, cap, rest) => Some (pre ++ before, cap, rest)
    | None => None
    end.
Proof.
  intros Hpre Hm Hlen. induction pre as [|c pre IH].
  - simpl app. now destruct (title_search (m ++ t)) as [[[b cap] r]|].
  - cbn [mentions_title] in Hpre. apply orb_false_iff in Hpre as [Hc Hpre].
    assert (Hover : starts_ci marker ((c :: pre) ++ m ++ t) = false)
      by (apply starts_ci_overlap; (discriminate || assumption)).
    simpl app in *. cbn [title_search]. rewrite Hover, (IH Hpre).
    now destruct (title_search (m ++ t)) as [[[b cap] r]|].
Qed.

Lemma title_search_none (s : jsstring) :
  mentions_title s = false -> title_search s = None.
Proof.
  induction s as [|c s IH]; intros H.
  - reflexivity.
  - cbn [mentions_title] in H. apply orb_false_iff in H as [Hc H].
    cbn [title_search]. now rewrite Hc, (IH H).
Qed.

(** Cutting the text and appending the dots does not make a marker. *)
Lemma starts_ci_cut (p : jsstring) (n : nat) (s : jsstring) :
  Forall (fun a => same_ci a 46%N = false) p ->
  starts_ci p s = false ->
  starts_ci p (firstn n s ++ str "...") = false.
Proof.
  intros Hp. revert n s. induction Hp as [|a p Ha Hp IH]; intros n s H.
  - destruct s; discriminate.
  - destruct n as [|n]; [simpl; now rewrite Ha|].
    destruct s as [|c s]; [simpl; now rewrite Ha|].
    simpl in *. apply andb_false_iff in H as [H | H].
    + now rewrite H.
    + rewrite (IH n s H). apply andb_false_r.
Qed.

Lemma mentions_title_cut (n : nat) (s : jsstring) :
  mentions_title s = false -> mentions_title (firstn n s ++ str "...") = false.
Proof.
  revert n. induction s as [|c s IH]; intros n H.
  - now destruct n.
  - destruct n as [|n]; [reflexivity|].
    pose proof H as H'. cbn [mentions_title] in H'.
    apply orb_false_iff in H' as [Hc Hs].
    change (firstn (S n) (c :: s) ++ str "...")
      with (c :: (firstn n s ++ str "...")).
    cbn [mentions_title]. rewrite (IH n Hs), orb_false_r.
    apply (@starts_ci_cut marker (S n) (c :: s)); [|assumption].
    repeat constructor.
Qed.

Lemma mentions_title_truncate (s : jsstring) :
  mentions_title s = false -> mentions_title (truncate s) = false.
Proof.
  intros H. unfold truncate.
  destruct (Nat.ltb max_length (length s)); [now apply mentions_title_cut | assumption].
Qed.

(** The test on the lower-cased text sees every marker that the expression
    can match. *)
Lemma lower_unit_letter (p c : char16) :
  (97 <= p <= 122)%N -> same_ci p c = true -> lower_unit c = [p].
Proof.
  intros Hp H. unfold same_ci, upper_ascii in H. apply N.eqb_eq in H.
  assert (Hp' : ((97 <=? p) && (p <=? 122))%N = true).
  { apply andb_true_iff. split; apply N.leb_le; lia. }
  rewrite Hp' in H. unfold lower_unit.
  destruct ((97 <=? c) && (c <=? 122))%N eqn:Ec.
  - apply andb_true_iff in Ec as [E1 E2]. apply N.leb_le in E1, E2.
    assert (c = p) by lia. subst c.
    replace ((65 <=? p) && (p <=? 90))%N with false
      by (symmetry; apply andb_false_iff; right; apply N.leb_gt; lia).
    replace ((192 <=? p) && (p <=? 222) && negb (p =? 215))%N with false
      by (symmetry; apply andb_false_iff; left; apply andb_false_iff; left;
          apply N.leb_gt; lia).
    replace (p =? 304)%N with false by (symmetry; apply N.eqb_neq; lia).
    now replace (p =? 8490)%N with false by (symmetry; apply N.eqb_neq; lia).
  - assert (c = (p - 32)%N) by lia. subst c.
    replace ((65 <=? p - 32) && (p - 32 <=? 90))%N with true
      by (symmetry; apply andb_true_iff; split; apply N.leb_le; lia).
    f_equal. lia.
Qed.

Lemma toLowerCase_marker (m : jsstring) :
  starts_ci marker m = true -> length m = 6 -> toLowerCase m = str "title:".
Proof.
  intros Hm Hlen.
  do 6 (destruct m as [|? m]; [discriminate|]).
  destruct m; [|discriminate]. clear Hlen.
  open_marker. split_ands.
  unfold toLowerCase. cbn [flat_map].
  repeat match goal with
         | H : same_ci ?p ?c = true |- context [lower_unit ?c] =>
             rewrite (@lower_unit_letter p c) by (lia || exact H)
         end.
  match goal with
  | H : same_ci 58%N ?c = true |- _ =>
      apply N.eqb_eq in H; unfold upper_ascii in H;
      destruct ((97 <=? c) && (c <=? 122))%N eqn:Ec;
      [apply andb_true_iff in Ec as [E1 E2]; apply N.leb_le in E1, E2;
       simpl in H; lia
      | simpl in H; subst c]
  end.
  reflexivity.
Qed.

Lemma includes_app (p a b : jsstring) : includes p (a ++ p ++ b) = true.
Proof.
  induction a as [|c a IH].
  - simpl app. destruct (p ++ b) eqn:E; cbn [includes];
      rewrite <- E, (@startsWith_app p p b); try reflexivity;
      clear; induction p as [|x p IH]; simpl; [reflexivity | | reflexivity | ];
      now rewrite N.eqb_refl.
  - simpl app. cbn [includes]. rewrite IH. apply orb_true_r.
Qed.

Lemma includes_marker (pre m t : jsstring) :
  starts_ci marker m = true -> length m = 6 ->
  includes (str "title:") (toLowerCase (pre ++ m ++ t)) = true.
Proof.
  intros Hm Hlen. unfold toLowerCase. rewrite !flat_map_app.
  fold (toLowerCase m). rewrite (toLowerCase_marker m Hm Hlen).
  apply includes_app.
Qed.

(** The cut at 8000 units leaves a title line that ends before it as it
    is. *)
Lemma truncate_title_line (head y : jsstring) :
  length head < max_length ->
  truncate (head ++ LF :: y)
  = head ++ LF :: (if Nat.ltb max_length (length (head ++ LF :: y))
                   then firstn (max_length - S (length head)) y ++ str "..."
                   else y).
Proof.
  intros H. unfold truncate.
  destruct (Nat.ltb max_length (length (head ++ LF :: y))); [|reflexivity].
  change (head ++ LF :: y) with (head ++ [LF] ++ y).
  rewrite app_assoc, firstn_app, firstn_all2, length_app, <- !app_assoc.
  - cbn [length]. now replace (length head + 1) with (S (length head)) by lia.
  - rewrite length_app. cbn [length]. lia.
Qed.

(** The title and the content of a text whose title line is not blank. *)
Lemma extractTitle_title_line (pre m x y : jsstring) :
  mentions_title pre = false ->
  starts_ci marker m = true ->
  length m = 6 ->
  Forall (fun c => is_nl c = false) x ->
  trim x <> [] ->
  length (pre ++ m ++ x) < max_length ->
  extractTitle (pre ++ m ++ x ++ LF :: y)
  = (trim x,
     trim (pre ++ LF :: (if Nat.ltb max_length (length (pre ++ m ++ x ++ LF :: y))
                         then firstn (max_length - S (length (pre ++ m ++ x))) y ++ str "..."
                         else y))).
Proof.
  intros Hpre Hm Hlen Hx Hblank Hshort. unfold extractTitle.
  pose proof (@truncate_title_line (pre ++ m ++ x) y Hshort) as Hcut.
  rewrite <- !app_assoc in Hcut. rewrite Hcut. clear Hcut.
  set (rest := if Nat.ltb max_length (length (pre ++ m ++ x ++ LF :: y))
               then firstn (max_length - S (length (pre ++ m ++ x))) y ++ str "..."
               else y).
  rewrite (@includes_marker pre m _ Hm Hlen).
  rewrite (@title_search_skip pre m _ Hpre Hm Hlen).
  pose proof (@trim_nonempty x Hblank) as Hne.
  assert (Hhere : title_search (m ++ x ++ LF :: rest)
                  = Some ([], dropWhile is_space x, LF :: rest)).
  { destruct m as [|c m]; [discriminate|].
    simpl app. cbn [title_search].
    change (c :: m ++ x ++ LF :: rest) with ((c :: m) ++ x ++ LF :: rest).
    rewrite (@starts_ci_app marker (c :: m) _ Hm), (@skipn_marker (c :: m) _ Hlen).
    now rewrite (@ws_then_line_title x rest Hx Hne). }
  rewrite Hhere, app_nil_r.
  destruct (dropWhile is_space x) as [|c cap] eqn:E; [now destruct Hne|].
  now rewrite <- E, trim_dropWhile.
Qed.

(** C4, as the code has it.  For an input that reads [pre], then the marker
    "title:" in any letter case, then [x], a line break and [y], where [pre]
    holds no marker, [x] holds no line break and is not blank, and the title
    line ends within the first 8000 units, the title is [x] trimmed and the
    content is the input, cut to its first 8000 units followed by "..." when
    it is longer, without the marker and [x], trimmed: the text before the
    marker and the line break stay.  For an input [s] that holds no marker
    the title is "Scholarly Article" and the content is the input, cut in the
    same way.  The title and the content are what the request to the model
    carries, and the title is the one of the result. *)
Theorem extractTitle_marker (pre m x y s : jsstring) :
  mentions_title pre = false ->
  starts_ci (str "title:") m = true ->
  length m = 6 ->
  Forall (fun c => is_nl c = false) x ->
  trim x <> [] ->
  length (pre ++ m ++ x) < N.to_nat 8000 ->
  mentions_title s = false ->
  let input := pre ++ m ++ x ++ LF :: y in
  let rest :=
    if Nat.ltb (N.to_nat 8000) (length input)
    then firstn (N.to_nat 8000 - S (length (pre ++ m ++ x))) y ++ str "..."
    else y in
  let cut :=
    if Nat.ltb (N.to_nat 8000) (length s) then firstn (N.to_nat 8000) s ++ str "..." else s in
  let request (title content : jsstring) :=
    str "title: " ++ title ++ [32; 8230; 32]%N ++ content ++ [32; 8230; 10]%N
    ++ str "Expand" ++ [10%N] ++ str "Assistant" in
  extractTitle input = (trim x, trim (pre ++ LF :: rest))
  /\ extractTitle s = (str "Scholarly Article", cut)
  /\ (forall create create' : Responses,
        create (request (trim x) (trim (pre ++ LF :: rest)))
        = create' (request (trim x) (trim (pre ++ LF :: rest))) ->
        summarizeArticle create input = summarizeArticle create' input)
  /\ (forall (create : Responses) (r : jsstring),
        create (request (trim x) (trim (pre ++ LF :: rest)))
        = Ok (VObj [(str "output_text", VStr r)]) ->
        trim r <> [] ->
        startsWith (str "{") r && endsWith (str "}") r = false ->
        summarizeArticle create input
        = {| title := trim x; summary := r; error := None |})
  /\ (forall create create' : Responses,
        create (request (str "Scholarly Article") cut)
        = create' (request (str "Scholarly Article") cut) ->
        summarizeArticle create s = summarizeArticle create' s)
  /\ (forall (create : Responses) (r : jsstring),
        create (request (str "Scholarly Article") cut)
        = Ok (VObj [(str "output_text", VStr r)]) ->
        trim r <> [] ->
        startsWith (str "{") r && endsWith (str "}") r = false ->
        summarizeArticle create s
        = {| title := str "Scholarly Article"; summary := r; error := None |}).
Proof.
  intros Hpre Hm Hlen Hx Hblank Hshort Hs input rest cut request.
  assert (Hin : extractTitle input = (trim x, trim (pre ++ LF :: rest)))
    by now apply extractTitle_title_line.
  assert (Hout : extractTitle s = (str "Scholarly Article", cut)).
  { unfold extractTitle.
    rewrite (@title_search_none _ (@mentions_title_truncate _ Hs)).
    now destruct (includes _ _). }
  assert (Hus : forall r, trim r <> [] ->
                          startsWith (str "{") r && endsWith (str "}") r = false ->
                          usable r = true).
  { intros r H1 H2. unfold usable. apply eqs_false in H1. now rewrite H1, H2. }
  split; [exact Hin | split; [exact Hout | split; [|split; [|split]]]].
  - intros create create' H. apply summarizeArticle_request. now rewrite Hin.
  - intros create r H H1 H2.
    rewrite (@summarizeArticle_output_text create input r); rewrite ?Hin; auto.
  - intros create create' H. apply summarizeArticle_request. now rewrite Hout.
  - intros create r H H1 H2.
    rewrite (@summarizeArticle_output_text create s r); rewrite ?Hout; auto.
Qed.

End Title.

Lemma extractTitle_marker_witness :
  LLM.extractTitle
    (str "A paper " ++ str "TiTle:" ++ str "  Foo Bar " ++ LF :: repeat 97%N (N.to_nat 9000))
  = (str "Foo Bar",
     str "A paper " ++ LF :: repeat 97%N (N.to_nat 7975) ++ str "...")
  /\ LLM.extractTitle (str "no marker here") = (str "Scholarly Article", str "no marker here")
  /\ LLM.summarizeArticle
       (fun text =>
          if eqs text
               (str "title: Foo Bar" ++ [32; 8230; 32]%N
                ++ str "A paper " ++ LF :: repeat 97%N (N.to_nat 7975) ++ str "..."
                ++ [32; 8230; 10]%N ++ str "Expand" ++ [10%N] ++ str "Assistant")
          then Ok (VObj [(str "output_text", VStr (str "Deep"))])
          else Throw NonError)
       (str "A paper " ++ str "TiTle:" ++ str "  Foo Bar " ++ LF :: repeat 97%N (N.to_nat 9000))
     = {| LLM.title := str "Foo Bar"; LLM.summary := str "Deep"; LLM.error := None |}.
Proof.
  pose proof (@extractTitle_marker (str "A paper ") (str "TiTle:") (str "  Foo Bar ")
                (repeat 97%N (N.to_nat 9000)) (str "no marker here")
                eq_refl eq_refl eq_refl) as H.
  assert (Hx : Forall (fun c => is_nl c = false) (str "  Foo Bar ")) by repeat constructor.
  assert (Hblank : trim (str "  Foo Bar ") <> []) by (vm_compute; discriminate).
  assert (Hshort : length (str "A paper " ++ str "TiTle:" ++ str "  Foo Bar ") < N.to_nat 8000)
    by (apply Nat.ltb_lt; vm_compute; reflexivity).
  destruct (H Hx Hblank Hshort eq_refl) as (H1 & H2 & _ & H4 & _).
  split; [|split].
  - etransitivity; [exact H1 | vm_compute; reflexivity].
  - etransitivity; [exact H2 | vm_compute; reflexivity].
  - etransitivity; [apply (H4 _ (str "Deep")) | vm_compute; reflexivity].
    + vm_compute. reflexivity.
    + vm_compute. discriminate.
    + reflexivity.
Defined.

(** Only the match is taken out of the text: for "Paper title: Foo" followed
    by the line "Body" the content keeps the start of the title line, where
    the specification has the content "Body". *)
Lemma extractTitle_keeps_line_start :
  LLM.extractTitle (str "Paper title: Foo" ++ LF :: str "Body")
  = (str "Foo", str "Paper " ++ LF :: str "Body")
  /\ snd (LLM.extractTitle (str "Paper title: Foo" ++ LF :: str "Body")) <> str "Body".
Proof.
  split; [reflexivity | vm_compute; discriminate].
Qed.

(** With a blank title line the expression runs over the line break: for
    "title: " followed by the line "Body" the title is "Body" and no content
    is left. *)
Example extractTitle_blank_title_line :
  LLM.extractTitle (str "title:" ++ str " " ++ LF :: str "Body") = (str "Body", []).
Proof. reflexivity. Qed.

(* ------------------------------------------------------------------ *)
(** ** The summary *)

Section Summary.

Import LLM.






(** Every outcome of the call gives a summary that is not empty. *)
Lemma summary_never_empty (create : Responses) (articleText : jsstring) :
  summary (summarizeArticle create articleText) <> [].
Proof.
  unfold summarizeArticle.
  destruct (extractTitle articleText) as [title content].
  destruct (create (prompt title content)) as [response|e]; [|discriminate].
  cbn [bind].
  destruct (extractSummary response) as [extracted|e]; [|discriminate].
  cbn [bind]. unfold guardSummary.
  destruct (Val.truthy extracted) eqn:Et; [|discriminate].
  cbn [negb].
  destruct extracted as [| | | |s| |]; try discriminate.
  destruct (_ || _); [discriminate|].
  cbn [bind summary]. destruct s; [discriminate Et | discriminate].
Qed.

End Summary.



(** A rejected call gives the fixed error record. *)
Lemma summarizeArticle_rejected (create : LLM.Responses) (articleText : jsstring) (e : thrown) :
  create (LLM.prompt (fst (LLM.extractTitle articleText)) (snd (LLM.extractTitle articleText)))
  = Throw e ->
  LLM.summarizeArticle create articleText
  = {| LLM.title := LLM.error_title; LLM.summary := LLM.error_summary;
       LLM.error := Some (message_of e LLM.unknown_summary_error) |}.
Proof.
  intros H. unfold LLM.summarizeArticle.
  destruct (LLM.extractTitle articleText) as [title content]. simpl in H.
  now rewrite H.
Qed.

(** An empty extraction or an echo of an object is replaced by the default
    summary. *)
Lemma guardSummary_default (title s : jsstring) :
  eqs (trim s) [] || (startsWith (str "{") s && endsWith (str "}") s) = true ->
  LLM.guardSummary title (VStr s) = Ok (LLM.default_summary title).
Proof.
  intros H. unfold LLM.guardSummary. destruct s as [|c s]; [reflexivity|].
  cbn [Val.truthy negb]. now rewrite H.
Qed.

(** C2, at the failing input.  The summary of every outcome is non-empty
    ([summary_never_empty]), but the title is not: for the text "title: " the
    expression captures the blank after the marker, the capture is truthy,
    and trimming it leaves the empty title, which is returned next to the
    summary of a successful call. *)
Theorem summarizeArticle_blank_title :
  LLM.summarizeArticle
    (Sample.replies (VObj [(str "output_text", VStr (str "A summary."))]))
    (str "title: ")
  = {| LLM.title := []; LLM.summary := str "A summary."; LLM.error := None |}.
Proof. reflexivity. Qed.

(* ------------------------------------------------------------------ *)
(** ** Further properties of the search provider *)

Section SearchMore.

Import Scholar.

Variables (h : ScholarHelper) (net : Network).

(** The three ways in which a call ends. *)
Lemma searchArticles_cases (fuel : nat) (log : list Request) (q : jsstring) (page : Z) :
  let r1 := mkRequest h q page in
  let r2 := mkRequest h (generalQuery q) page in
  (apiKey h = []
   /\ searchArticles (S (S fuel)) h net log q page
      = Some (synthetic q (Msg missing_key_message), log))
  \/ (apiKey h <> []
      /\ searchArticles (S (S fuel)) h net log q page
         = Some (answer q (net log r1), log ++ [r1]))
  \/ (apiKey h <> [] /\ generalQuery q <> q
      /\ searchArticles (S (S fuel)) h net log q page
         = Some (answer (generalQuery q) (net (log ++ [r1]) r2), log ++ [r1; r2])).
Proof.
  intros r1 r2. rewrite searchArticles_step. cbv zeta. fold r1.
  destruct (apiKey h) as [|c k] eqn:E; [left; now split|].
  assert (Hkey : apiKey h <> []) by (rewrite E; discriminate). rewrite <- E.
  right.
  destruct (net log r1) as [status [data|]|e] eqn:En; try (left; now split).
  - destruct (negb (Z.eqb status 200)) eqn:Es.
    + left. split; [assumption|]. unfold answer. now rewrite Es.
    + destruct (data_scholar_results data) as [[|x l]|] eqn:Ed;
        try (left; now split).
      destruct (keywords q) eqn:Ek; [left; now split|].
      destruct (negb (eqs (generalQuery q) q)) eqn:Eq; [|left; now split].
      right. apply negb_true_iff, eqs_false in Eq.
      apply negb_false_iff, Z.eqb_eq in Es. subst status.
      repeat split; try assumption.
      rewrite searchArticles_settled; [now rewrite <- app_assoc | assumption |].
      right. apply generalQuery_idempotent.
Qed.

Lemma answer_shape (q : jsstring) (o : HttpOutcome) :
  scholar_results (answer q o) <> None
  /\ (error (answer q o) = None \/ exists m, answer q o = synthetic q m).
Proof.
  destruct o as [status [data|]|e]; simpl.
  - destruct (negb (Z.eqb status 200)); simpl; split; try discriminate; eauto.
  - destruct (negb (Z.eqb status 200)); simpl; split; try discriminate; eauto.
  - split; [discriminate | eauto].
Qed.

(** Every call sends at most two requests, appended to the log in order: none
    without a key, else one for the query itself, and possibly one more for
    the derived keyword string, which then differs from the query.  Each
    request carries its query and the key, language, page and page size of
    the helper. *)
Theorem searchArticles_requests (fuel : nat) (log : list Request) (q : jsstring) (page : Z) :
  2 <= fuel ->
  let request x :=
    {| req_api_key := apiKey h; req_query := x; req_language := language h;
       req_page := page; req_results := resultsPerPage h |} in
  let derived :=
    join (str " ")
      (firstn 3 (filter (fun w => Nat.ltb 3 (length w))
                   (split_ws (filter (fun c => negb (N.eqb c 39 || N.eqb c 34)) q)))) in
  exists r new,
    searchArticles fuel h net log q page = Some (r, log ++ new)
    /\ (apiKey h = [] -> new = [])
    /\ (apiKey h <> [] ->
        new = [request q] \/ (new = [request q; request derived] /\ derived <> q)).
Proof.
  intros Hfuel request derived. destruct fuel as [|[|fuel]]; try lia. clear Hfuel.
  change request with (fun x => mkRequest h x page).
  change derived with (generalQuery q). cbv beta.
  destruct (searchArticles_cases fuel log q page)
    as [[Hk ->] | [[Hk ->] | (Hk & Hq & ->)]].
  - exists (synthetic q (Msg missing_key_message)), [].
    rewrite app_nil_r. split; [reflexivity|]. split; [reflexivity|].
    intros Hne. now destruct Hne.
  - eexists. exists [mkRequest h q page]. split; [reflexivity|].
    split; [intros He; now destruct Hk | now left].
  - eexists. exists [mkRequest h q page; mkRequest h (generalQuery q) page].
    split; [reflexivity|].
    split; [intros He; now destruct Hk | right; now split].
Qed.

(** The response of a call is never partial: the result list is always there,
    and a response that carries an error is the synthetic one, with an empty
    list and the count "0 results". *)
Theorem searchArticles_response_shape (fuel : nat) (log : list Request) (q : jsstring)
    (page : Z) :
  2 <= fuel ->
  exists r log',
    searchArticles fuel h net log q page = Some (r, log')
    /\ scholar_results r <> None
    /\ (error r = None
        \/ exists qf m, r = synthetic qf m /\ (qf = q \/ qf = generalQuery q)).
Proof.
  intros Hfuel. destruct fuel as [|[|fuel]]; try lia. clear Hfuel.
  destruct (searchArticles_cases fuel log q page)
    as [[Hk ->] | [[Hk ->] | (Hk & Hq & ->)]].
  - eexists. eexists. split; [reflexivity|]. split; [discriminate|].
    right. eauto.
  - eexists. eexists. split; [reflexivity|].
    destruct (answer_shape q (net log (mkRequest h q page))) as [H1 [H2 | [m H2]]];
      split; auto. right. eauto.
  - eexists. eexists. split; [reflexivity|].
    destruct (answer_shape (generalQuery q)
                (net (log ++ [mkRequest h q page]) (mkRequest h (generalQuery q) page)))
      as [H1 [H2 | [m H2]]]; split; auto. right. eauto.
Qed.

(** A first answer that holds results, or no result list at all, is returned
    as it is after one request: the query is broadened only for a list that
    is present and empty. *)
Theorem searchArticles_no_retry (fuel : nat) (log : list Request) (q : jsstring)
    (page : Z) (data : ScrapingDogResponse) :
  1 <= fuel ->
  apiKey h <> [] ->
  net log (mkRequest h q page) = Response 200 (Some data) ->
  data_scholar_results data <> Some [] ->
  searchArticles fuel h net log q page
  = Some ({| search_details := data_search_details data;
             scholar_results := Some (match data_scholar_results data with
                                      | Some l => l
                                      | None => []
                                      end);
             error := None |}, log ++ [mkRequest h q page]).
Proof.
  intros Hfuel Hkey Hnet Hres. destruct fuel as [|fuel]; [lia|].
  rewrite searchArticles_step. cbv zeta.
  destruct (apiKey h) as [|c k]; [now destruct Hkey|].
  rewrite Hnet. simpl negb. cbv iota.
  unfold answer. simpl negb. cbv iota.
  destruct (data_scholar_results data) as [[|x l]|]; [now destruct Hres | |];
    reflexivity.
Qed.

End SearchMore.

Lemma searchArticles_requests_witness :
  exists r new,
    Scholar.searchArticles 2 Sample.helper (Sample.net_then Sample.found_nothing) []
      Sample.q1 0
    = Some (r, [] ++ new)
    /\ new = [{| Scholar.req_api_key := str "key"; Scholar.req_query := Sample.q1;
                 Scholar.req_language := str "en"; Scholar.req_page := 0;
                 Scholar.req_results := 20 |};
              {| Scholar.req_api_key := str "key";
                 Scholar.req_query := str "quantum computing";
                 Scholar.req_language := str "en"; Scholar.req_page := 0;
                 Scholar.req_results := 20 |}].
Proof.
  destruct (@searchArticles_requests Sample.helper (Sample.net_then Sample.found_nothing)
              2 [] Sample.q1 0%Z (le_n 2)) as (r & new & Hrun & _ & _).
  exists r, new. split; [exact Hrun|].
  assert (Hsome : Some (r, [] ++ new)
                  = Scholar.searchArticles 2 Sample.helper
                      (Sample.net_then Sample.found_nothing) [] Sample.q1 0)
    by (symmetry; exact Hrun).
  vm_compute in Hsome. now injection Hsome as _ ->.
Defined.

Lemma searchArticles_response_shape_witness :
  exists r log',
    Scholar.searchArticles 2 Sample.helper (Sample.net_then Sample.network_error) []
      Sample.q0 0
    = Some (r, log')
    /\ Scholar.scholar_results r <> None
    /\ (Scholar.error r = None
        \/ exists qf m, r = Scholar.synthetic qf m
                        /\ (qf = Sample.q0 \/ qf = Scholar.generalQuery Sample.q0)).
Proof.
  exact (@searchArticles_response_shape Sample.helper
           (Sample.net_then Sample.network_error) 2 [] Sample.q0 0%Z (le_n 2)).
Defined.

Lemma searchArticles_no_retry_witness :
  Scholar.searchArticles 1 Sample.helper Sample.net_found [] Sample.q0 0
  = Some ({| Scholar.search_details := None;
             Scholar.scholar_results := Some [Sample.one_result];
             Scholar.error := None |},
          [] ++ [Scholar.mkRequest Sample.helper Sample.q0 0]).
Proof.
  refine (@searchArticles_no_retry Sample.helper Sample.net_found 1 [] Sample.q0 0%Z
            Sample.found_one _ _ _ _).
  - lia.
  - vm_compute. discriminate.
  - reflexivity.
  - discriminate.
Defined.

(** The keywords survive the trip through the broadened query: extracting the
    keywords of the joined keywords gives the same keywords.  There are at
    most three, each longer than 3 units and free of white space and
    quotes. *)
Theorem keywords_round_trip (q : jsstring) :
  Scholar.keywords (Scholar.generalQuery q) = Scholar.keywords q
  /\ length (Scholar.keywords q) <= 3
  /\ Forall (fun k => 3 < length k
                      /\ Forall (fun c => is_space c = false) k
                      /\ Forall (fun c => c <> Scholar.APOSTROPHE /\ c <> Scholar.QUOTE) k)
       (Scholar.keywords q).
Proof.
  destruct (keywords_shape q) as [Hlen H]. split; [|split; [exact Hlen|]].
  - unfold Scholar.generalQuery.
    destruct (Scholar.keywords q) as [|k ks] eqn:E; [reflexivity|].
    now apply keywords_fixed.
  - eapply Forall_impl; [|exact H]. intros k (H1 & H2 & H3). repeat split; auto.
    eapply Forall_impl; [|exact H3]. intros c Hc. unfold Scholar.unquoted in Hc.
    apply negb_true_iff, orb_false_iff in Hc as [Ha Hb].
    now apply N.eqb_neq in Ha, Hb.
Qed.

(** The constructor falls back to the page size 20 when the configuration
    has none or has 0, and to the language "en" when the configuration has
    none or the empty string, so it never leaves the page size at zero or
    the language empty; the helper is without a key exactly when neither the
    configuration nor the environment holds a non-empty one; a key of the
    configuration wins over the one of the environment. *)
Theorem new_ScholarHelper_defaults (config : Scholar.ScholarConfig)
    (env_key : option jsstring) :
  let h := Scholar.new_ScholarHelper config env_key in
  Scholar.resultsPerPage h
  = match Scholar.cfg_resultsPerPage config with
    | Some z => if Z.eqb z 0 then 20%Z else z
    | None => 20%Z
    end
  /\ Scholar.language h
     = match Scholar.cfg_language config with
       | Some (c :: l) => c :: l
       | _ => str "en"
       end
  /\ Scholar.resultsPerPage h <> 0%Z
  /\ Scholar.language h <> []
  /\ (Scholar.apiKey h = []
      <-> Scholar.no_key (Scholar.cfg_apiKey config) = true
          /\ Scholar.no_key env_key = true)
  /\ match Scholar.cfg_apiKey config, env_key with
     | Some (c :: k), _ => Scholar.apiKey h = c :: k
     | _, Some (c :: k) => Scholar.apiKey h = c :: k
     | _, _ => Scholar.apiKey h = []
     end.
Proof.
  cbv zeta. split; [|split; [|split; [|split; [|split]]]].
  - reflexivity.
  - unfold Scholar.new_ScholarHelper. cbn [Scholar.language].
    now destruct (Scholar.cfg_language config) as [[|? ?]|].
  - unfold Scholar.new_ScholarHelper. cbn [Scholar.resultsPerPage].
    destruct (Scholar.cfg_resultsPerPage config) as [z|]; simpl; [|discriminate].
    destruct (Z.eqb z 0) eqn:E; [discriminate | now apply Z.eqb_neq in E].
  - unfold Scholar.new_ScholarHelper. cbn [Scholar.language].
    destruct (Scholar.cfg_language config) as [[|? ?]|]; discriminate.
  - unfold Scholar.new_ScholarHelper. cbn [Scholar.apiKey].
    destruct (Scholar.cfg_apiKey config) as [[|? ?]|];
      destruct env_key as [[|? ?]|]; simpl; intuition discriminate.
  - unfold Scholar.new_ScholarHelper. cbn [Scholar.apiKey].
    destruct (Scholar.cfg_apiKey config) as [[|? ?]|];
      destruct env_key as [[|? ?]|]; reflexivity.
Qed.

(* ------------------------------------------------------------------ *)
(** ** Further properties of the query generator *)

Section GeneratorMore.

Import Cohere.

Lemma parse_nonempty (response : jsstring) : parseQueriesFromResponse response <> [].
Proof.
  unfold parseQueriesFromResponse.
  destruct (match_numbered 0 response); [|discriminate].
  now destruct (filter _ _).
Qed.

Lemma parse_trimmed (response : jsstring) :
  Forall (fun q => trim q = q) (parseQueriesFromResponse response).
Proof.
  unfold parseQueriesFromResponse.
  destruct (match_numbered 0 response) as [|m ms].
  - destruct (filter _ _) as [|l ls] eqn:E.
    + constructor; [apply trim_idempotent | constructor].
    + rewrite <- E. apply Forall_forall. intros q Hq.
      apply filter_In in Hq as [Hq _].
      apply in_map_iff in Hq as (raw & <- & _). apply trim_idempotent.
  - apply Forall_forall. intros q Hq.
    apply in_map_iff in Hq as (item & <- & _). apply trim_idempotent.
Qed.

(** [generateSearchQueries] reports a failure and an empty list together: the
    list of queries is empty exactly when the result carries an error, and
    the queries of a successful call are trimmed. *)
Theorem generateSearchQueries_error_iff (h : CohereHelper) (client : Client)
    (interests : list jsstring) :
  let r := generateSearchQueries h client interests in
  (queries r = [] <-> error r <> None)
  /\ Forall (fun q => trim q = q) (queries r).
Proof.
  unfold generateSearchQueries. destruct (client _) as [text|e]; simpl.
  - split; [|apply parse_trimmed]. split; intros H.
    + now apply parse_nonempty in H.
    + now destruct H.
  - split; [|constructor]. split; [discriminate | reflexivity].
Qed.

(** [generateOptimizedQuery] falls back to the interests joined by spaces
    exactly when the chat call is rejected; otherwise it returns the first
    parsed query. *)
Theorem generateOptimizedQuery_fallback (h : CohereHelper) (client : Client)
    (interests : list jsstring) :
  match client {| chat_token := token h; chat_model := model h;
                  chat_message :=
                    str "Generate 5 Google Scholar search queries based on these interests: "
                    ++ join (str ", ") interests |} with
  | ChatText text =>
      exists rest,
        parseQueriesFromResponse text = generateOptimizedQuery h client interests :: rest
  | ChatRejected _ =>
      generateOptimizedQuery h client interests = join (str " ") interests
  end.
Proof.
  unfold generateOptimizedQuery, generateSearchQueries.
  destruct (client _) as [text|e]; simpl; [|reflexivity].
  pose proof (parse_nonempty text) as H.
  destruct (parseQueriesFromResponse text) as [|q rest]; [now destruct H | now exists rest].
Qed.

(** The tail of the expression on a line that is not blank, up to the end of
    the line or of the text. *)
Lemma ws_then_line_upto (x tail : jsstring) :
  Forall (fun c => is_nl c = false) x ->
  dropWhile is_space x <> [] ->
  match tail with [] => True | c :: _ => c = LF end ->
  ws_then_line (x ++ tail) = Some (takeWhile is_space x, dropWhile is_space x, tail).
Proof.
  intros Hx Hne Htail.
  assert (Hline : forall l, Forall (fun c => is_nl c = false) l ->
            takeWhile (fun u => negb (is_nl u)) (l ++ tail) = l
            /\ dropWhile (fun u => negb (is_nl u)) (l ++ tail) = tail).
  { induction 1 as [|c l Hc _ [IH1 IH2]]; simpl.
    - destruct tail as [|c t]; [now split|]. subst c. now split.
    - rewrite Hc. simpl. now rewrite IH1, IH2. }
  induction Hx as [|c x Hc Hx IH]; [now destruct Hne|].
  simpl app. cbn [ws_then_line takeWhile dropWhile] in *.
  destruct (is_space c) eqn:E.
  - now rewrite (IH Hne).
  - destruct (Hline x Hx) as [H1 H2]. rewrite Hc. cbn [negb]. now rewrite H1, H2.
Qed.

Lemma match_numbered_skip (a b : jsstring) :
  match_numbered (length a) (a ++ b) = match_numbered 0 b.
Proof. induction a as [|c a IH]; [reflexivity | exact IH]. Qed.

(** An item on its line is matched whole. *)
Lemma match_numbered_item (d q tail : jsstring) :
  d <> [] -> Forall (fun c => is_digit c = true) d ->
  Forall (fun c => is_nl c = false) q -> trim q <> [] ->
  match tail with [] => True | c :: _ => c = LF end ->
  match_numbered 0 ((d ++ DOT :: 32%N :: q) ++ tail)
  = (d ++ DOT :: 32%N :: q) :: match_numbered 0 tail.
Proof.
  intros Hne Hd Hq Hblank Htail.
  assert (Hat : numbered_at ((d ++ DOT :: 32%N :: q) ++ tail)
                = Some (d ++ DOT :: 32%N :: q)).
  { unfold numbered_at. rewrite <- app_assoc. simpl app.
    rewrite takeWhile_app_stop, dropWhile_app_stop by (assumption || reflexivity).
    destruct d as [|x d]; [now destruct Hne|]. rewrite N.eqb_refl.
    change (32%N :: q ++ tail) with ((32%N :: q) ++ tail).
    rewrite ws_then_line_upto; try assumption.
    - simpl. now rewrite takeWhile_dropWhile.
    - now constructor.
    - simpl. now apply trim_nonempty. }
  destruct d as [|x d]; [now destruct Hne|].
  simpl app in *. cbn [match_numbered]. rewrite Hat. f_equal.
  replace (length (x :: d ++ DOT :: 32%N :: q) - 1)
    with (length (d ++ DOT :: 32%N :: q)) by (simpl; lia).
  apply match_numbered_skip.
Qed.

(** No item begins inside a text without a dot that does not end in a
    digit. *)
Lemma match_numbered_preamble (pre s : jsstring) :
  Forall (fun c => N.eqb c DOT = false) pre ->
  is_digit (last pre 0%N) = false ->
  match_numbered 0 (pre ++ s) = match_numbered 0 s.
Proof.
  intros Hdot Hlast. induction Hdot as [|c pre Hc Hdot IH]; [reflexivity|].
  assert (Hnone : numbered_at ((c :: pre) ++ s) = None).
  { unfold numbered_at.
    pose proof (takeWhile_dropWhile is_digit (c :: pre)) as Hsplit.
    pose proof (takeWhile_all is_digit (c :: pre)) as Hrun.
    remember (takeWhile is_digit (c :: pre)) as run eqn:Erun. clear Erun.
    destruct (dropWhile is_digit (c :: pre)) as [|x t] eqn:Ed.
    - exfalso. rewrite app_nil_r in Hsplit. subst run.
      clear - Hrun Hlast. revert Hlast.
      generalize dependent c. induction pre as [|y pre IH]; intros c Hrun Hlast.
      + inversion Hrun; subst. simpl in Hlast. congruence.
      + inversion Hrun; subst. now apply (IH y).
    - pose proof (dropWhile_head _ _ Ed) as Hx.
      assert (Hxdot : N.eqb x DOT = false).
      { assert (Hin : In x (c :: pre)).
        { rewrite <- Hsplit. apply in_or_app. right. now left. }
        assert (Hall : Forall (fun u => N.eqb u DOT = false) (c :: pre))
          by now constructor.
        rewrite Forall_forall in Hall. now apply Hall. }
      rewrite <- Hsplit, <- app_assoc. simpl app.
      rewrite takeWhile_app_stop, dropWhile_app_stop by assumption.
      rewrite Hxdot. now destruct run. }
  simpl app in *. cbn [match_numbered].
  match goal with
  | |- context [numbered_at ?t] =>
      replace (numbered_at t) with (@None jsstring) by (symmetry; exact Hnone)
  end.
  apply IH. destruct pre; [reflexivity | exact Hlast].
Qed.

Lemma match_numbered_list (items : list (jsstring * jsstring)) :
  Forall (fun item => fst item <> [] /\ Forall (fun c => is_digit c = true) (fst item)
                      /\ Forall (fun c => is_nl c = false) (snd item)
                      /\ trim (snd item) <> []) items ->
  match_numbered 0 (Sample.numbered items)
  = map (fun item => fst item ++ DOT :: 32%N :: snd item) items.
Proof.
  unfold Sample.numbered.
  induction 1 as [|[d q] items (Hne & Hd & Hq & Hblank) Hitems IH]; [reflexivity|].
  cbn [fst snd] in *. cbn [map fst snd].
  destruct items as [|item items].
  - cbn [join map].
    transitivity (match_numbered 0 ((d ++ DOT :: 32%N :: q) ++ [])).
    + now rewrite app_nil_r.
    + rewrite match_numbered_item by (assumption || exact I). reflexivity.
  - transitivity
      (match_numbered 0
         ((d ++ DOT :: 32%N :: q)
          ++ LF :: join [LF] (map (fun item => fst item ++ DOT :: 32%N :: snd item)
                                (item :: items)))); [reflexivity|].
    rewrite match_numbered_item by (assumption || reflexivity). f_equal.
    cbn [match_numbered]. exact IH.
Qed.

(** A numbered list comes back as its queries: for a preamble without a dot
    that does not end in a digit, followed by items "<digits>. <query>" on
    lines of their own whose queries are not blank, the parser returns the
    queries of the items, trimmed, in order. *)
Theorem parseQueriesFromResponse_numbered (pre : jsstring)
    (items : list (jsstring * jsstring)) :
  Forall (fun c => N.eqb c DOT = false) pre ->
  is_digit (last pre 0%N) = false ->
  items <> [] ->
  Forall (fun item => fst item <> [] /\ Forall (fun c => is_digit c = true) (fst item)
                      /\ Forall (fun c => is_nl c = false) (snd item)
                      /\ trim (snd item) <> []) items ->
  parseQueriesFromResponse (pre ++ Sample.numbered items)
  = map (fun item => trim (snd item)) items.
Proof.
  intros Hpre Hlast Hne Hitems. unfold parseQueriesFromResponse.
  rewrite match_numbered_preamble, match_numbered_list by assumption.
  destruct items as [|item items]; [now destruct Hne|].
  cbn [map]. rewrite map_map. change (?a :: map ?f ?l) with (map f (item :: items)).
  apply map_ext_in. intros [d q] Hin.
  rewrite Forall_forall in Hitems. destruct (Hitems _ Hin) as (Hd1 & Hd2 & _).
  simpl fst in *. simpl snd in *.
  rewrite strip_marker_shape by assumption.
  rewrite <- (trim_dropWhile (32%N :: q)). simpl dropWhile. apply trim_dropWhile.
Qed.

(** Without numbered items the parser returns lines of the response: either
    the whole response, trimmed, as the only element, or trimmed lines that
    are not empty and do not begin with "Here" or "Based". *)
Theorem parseQueriesFromResponse_lines (response : jsstring) :
  match_numbered 0 response = [] ->
  parseQueriesFromResponse response = [trim response]
  \/ Forall (fun q => q <> []
                      /\ startsWith (str "Here") q = false
                      /\ startsWith (str "Based") q = false
                      /\ exists line, In line (split_nl response) /\ q = trim line)
       (parseQueriesFromResponse response).
Proof.
  intros Hnone. unfold parseQueriesFromResponse. rewrite Hnone.
  destruct (filter _ _) as [|l ls] eqn:E; [now left|]. right.
  rewrite <- E. apply Forall_forall. intros q Hq.
  apply filter_In in Hq as [Hq Hkeep].
  apply andb_true_iff in Hkeep as [Hkeep Hb]. apply andb_true_iff in Hkeep as [Hl Hh].
  apply negb_true_iff in Hl, Hh, Hb.
  apply in_map_iff in Hq as (line & <- & Hline).
  repeat split; try assumption.
  - intros Hq. rewrite Hq in Hl. discriminate.
  - now exists line.
Qed.

(** The route answers 200, 400 or 500, and a result is sent exactly with
    status 200. *)
Theorem POST_status (env : Env) (client : Client) (request_json : exc value) :
  let r := POST env client request_json in
  (status r = 200%Z \/ status r = 400%Z \/ status r = 500%Z)
  /\ (status r = 200%Z <-> exists q, body r = ResultBody q).
Proof.
  unfold POST. destruct request_json as [b|e]; cbn [bind].
  2: { simpl. split; [auto|]. split; [discriminate | now intros [q Hq]]. }
  destruct (Val.get b (str "interests")) as [v|e]; cbn [bind].
  2: { simpl. split; [auto|]. split; [discriminate | now intros [q Hq]]. }
  assert (H400 : forall r, r = {| status := 400;
                                  body := ErrorBody (Msg (str "Interests must be a non-empty array")) |} ->
            (status r = 200%Z \/ status r = 400%Z \/ status r = 500%Z)
            /\ (status r = 200%Z <-> exists q, body r = ResultBody q)).
  { intros r ->. simpl. split; [auto|]. split; [discriminate | now intros [q Hq]]. }
  destruct v as [| | | | |[|x l]|]; try (now apply H400).
  destruct (new_CohereHelper _ env) as [helper|e]; cbn [bind]; simpl.
  - split; [auto|]. split; [eauto | reflexivity].
  - split; [auto|]. split; [discriminate | now intros [q Hq]].
Qed.


End GeneratorMore.

Lemma parseQueriesFromResponse_numbered_witness :
  Cohere.parseQueriesFromResponse
    ((str "Here are 5 queries:" ++ [LF])
     ++ Sample.numbered [(str "1", str "deep learning "); (str "2", str " graph theory")])
  = map (fun item => trim (snd item))
      [(str "1", str "deep learning "); (str "2", str " graph theory")].
Proof.
  refine (@parseQueriesFromResponse_numbered (str "Here are 5 queries:" ++ [LF])
            [(str "1", str "deep learning "); (str "2", str " graph theory")] _ _ _ _).
  - repeat constructor.
  - reflexivity.
  - discriminate.
  - repeat constructor; try discriminate; vm_compute; discriminate.
Defined.

Lemma parseQueriesFromResponse_lines_witness :
  Cohere.parseQueriesFromResponse (str "Here you go" ++ LF :: str " deep learning ")
  = [trim (str "Here you go" ++ LF :: str " deep learning ")]
  \/ Forall (fun q => q <> []
                      /\ startsWith (str "Here") q = false
                      /\ startsWith (str "Based") q = false
                      /\ exists line,
                           In line (split_nl (str "Here you go" ++ LF :: str " deep learning "))
                           /\ q = trim line)
       (Cohere.parseQueriesFromResponse (str "Here you go" ++ LF :: str " deep learning ")).
Proof.
  exact (@parseQueriesFromResponse_lines
           (str "Here you go" ++ LF :: str " deep learning ") eq_refl).
Defined.


(* ------------------------------------------------------------------ *)
(** ** Further properties of the summarizer *)

Section SummarizerMore.

Import LLM.

Lemma trim_length (s : jsstring) : length (trim s) <= length s.
Proof.
  destruct (trim_infix s) as (a & b & E). rewrite E at 2.
  rewrite !length_app. lia.
Qed.

Lemma trim_units (P : char16 -> Prop) (s : jsstring) : Forall P s -> Forall P (trim s).
Proof.
  intros H. destruct (trim_infix s) as (a & b & E). rewrite E in H.
  apply Forall_app in H as [_ H]. now apply Forall_app in H as [H _].
Qed.

Lemma trim_keeps_head (c : char16) (s : jsstring) : is_space c = false -> trim (c :: s) <> [].
Proof.
  intros Hc. unfold trim. simpl dropWhile at 2. rewrite Hc. simpl rev at 2.
  assert (H : dropWhile is_space (rev s ++ [c]) <> []).
  { induction (rev s) as [|x l IH]; simpl.
    - now rewrite Hc.
    - destruct (is_space x); [exact IH | discriminate]. }
  intros E. apply H. apply (f_equal (@rev _)) in E. now rewrite rev_involutive in E.
Qed.

(** What the tail of the expression matches is a piece of the text. *)
Lemma ws_then_line_sound (s w cap rest : jsstring) :
  ws_then_line s = Some (w, cap, rest) ->
  s = w ++ cap ++ rest
  /\ Forall (fun c => is_space c = true) w
  /\ cap <> []
  /\ Forall (fun c => is_nl c = false) cap
  /\ match rest with [] => True | c :: _ => c = LF end.
Proof.
  assert (Hline : forall l,
            Forall (fun c => is_nl c = false) (takeWhile (fun x => negb (is_nl x)) l)
            /\ match dropWhile (fun x => negb (is_nl x)) l with
               | [] => True
               | c :: _ => c = LF
               end).
  { intros l. split.
    - eapply Forall_impl; [|apply takeWhile_all]. intros c Hc. simpl in Hc.
      now apply negb_true_iff in Hc.
    - destruct (dropWhile _ l) as [|c t] eqn:E; [exact I|].
      apply dropWhile_head in E. apply negb_false_iff in E.
      now apply N.eqb_eq in E. }
  revert w cap rest. induction s as [|c s IH]; intros w cap rest; [discriminate|].
  cbn [ws_then_line].
  assert (Hhere : is_nl c = false ->
            Some ([], takeWhile (fun x => negb (is_nl x)) (c :: s),
                      dropWhile (fun x => negb (is_nl x)) (c :: s))
            = Some (w, cap, rest) ->
            c :: s = w ++ cap ++ rest
            /\ Forall (fun c => is_space c = true) w
            /\ cap <> []
            /\ Forall (fun c => is_nl c = false) cap
            /\ match rest with [] => True | c :: _ => c = LF end).
  { intros Hc [= <- <- <-]. destruct (Hline (c :: s)) as [H1 H2].
    repeat split; try assumption.
    - symmetry. exact (takeWhile_dropWhile (fun x => negb (is_nl x)) (c :: s)).
    - constructor.
    - simpl. now rewrite Hc. }
  destruct (is_space c) eqn:E.
  - destruct (ws_then_line s) as [[[w' cap'] rest']|].
    + intros [= <- <- <-]. destruct (IH _ _ _ eq_refl) as (-> & Hw & Hne & Hcap & Hrest).
      repeat split; try assumption. now constructor.
    + destruct (is_nl c) eqn:En; [discriminate | now apply Hhere].
  - apply Hhere. destruct (is_nl c) eqn:En; [|reflexivity].
    apply N.eqb_eq in En. subst c. discriminate E.
Qed.

Lemma starts_ci_firstn (p s : jsstring) :
  starts_ci p s = true ->
  starts_ci p (firstn (length p) s) = true /\ length (firstn (length p) s) = length p.
Proof.
  revert s. induction p as [|a p IH]; intros s H; [now split|].
  destruct s as [|b s]; [discriminate|].
  simpl in H. apply andb_true_iff in H as [Hab H].
  destruct (IH s H) as [H1 H2]. simpl. now rewrite Hab, H1, H2.
Qed.

(** What the title expression matches is a piece of the text: a marker, white
    space, and the capture, which runs to the end of its line. *)
Lemma title_search_sound (s before cap rest : jsstring) :
  title_search s = Some (before, cap, rest) ->
  exists m w,
    s = before ++ m ++ w ++ cap ++ rest
    /\ starts_ci marker m = true /\ length m = 6
    /\ Forall (fun c => is_space c = true) w
    /\ cap <> []
    /\ Forall (fun c => is_nl c = false) cap
    /\ match rest with [] => True | c :: _ => c = LF end.
Proof.
  revert before. induction s as [|c s IH]; intros before.
  - cbn. discriminate.
  - cbn [title_search].
    destruct (starts_ci marker (c :: s)) eqn:Em.
    + destruct (ws_then_line (skipn 6 (c :: s))) as [[[w cap'] rest']|] eqn:Ew.
      * intros [= <- <- <-].
        apply ws_then_line_sound in Ew as (Es & Hw & Hne & Hcap & Hrest).
        exists (firstn 6 (c :: s)), w. rewrite <- Es.
        split; [symmetry; exact (firstn_skipn 6 (c :: s))|].
        destruct (starts_ci_firstn _ _ Em) as [H1 H2].
        repeat split; assumption.
      * destruct (title_search s) as [[[b cap'] rest']|]; [|discriminate].
        intros [= <- <- <-]. destruct (IH _ eq_refl) as (m & w & -> & H).
        now exists m, w.
    + destruct (title_search s) as [[[b cap'] rest']|]; [|discriminate].
      intros [= <- <- <-]. destruct (IH _ eq_refl) as (m & w & -> & H).
      now exists m, w.
Qed.

Lemma max_length_large : 17 <= max_length.
Proof. apply Nat.leb_le. vm_compute. reflexivity. Qed.

Lemma truncate_length (s : jsstring) : length (truncate s) <= max_length + 3.
Proof.
  unfold truncate. destruct (Nat.ltb max_length (length s)) eqn:E.
  - rewrite length_app, length_firstn. generalize max_length. intros n. cbn. lia.
  - apply Nat.ltb_ge in E. lia.
Qed.

(** [truncate] never returns more than 8003 units, keeps the first 8000 units
    of the text, and is idempotent: a text that was cut is not cut again. *)
Theorem truncate_bounds (s : jsstring) :
  length (truncate s) <= max_length + 3
  /\ firstn max_length (truncate s) = firstn max_length s
  /\ truncate (truncate s) = truncate s.
Proof.
  split; [apply truncate_length|].
  destruct (Nat.ltb max_length (length s)) eqn:E.
  - assert (Hcutting : truncate s = firstn max_length s ++ str "...")
      by (unfold truncate; now rewrite E).
    apply Nat.ltb_lt in E.
    assert (Hlen : length (firstn max_length s) = max_length)
      by (rewrite length_firstn; lia).
    assert (Hcut : firstn max_length (firstn max_length s ++ str "...")
                   = firstn max_length s).
    { rewrite firstn_app, Hlen, Nat.sub_diag, firstn_O, app_nil_r.
      rewrite <- Hlen at 1. apply firstn_all. }
    rewrite Hcutting. repeat split.
    + exact Hcut.
    + unfold truncate. rewrite length_app, Hlen.
      assert (Hlt : Nat.ltb max_length (max_length + length (str "...")) = true).
      { apply Nat.ltb_lt. generalize max_length. intros n. cbn. lia. }
      now rewrite Hlt, Hcut.
  - apply Nat.ltb_ge in E. rewrite !(truncate_short s E). repeat split; auto.
Qed.

(** The title and the content that go into the request are taken from the
    text: either the title is the default and the content is the truncated
    text, or the truncated text reads: a part before, a marker "title:" in
    some letter case, white space, a capture that runs to the end of its
    line, and a rest; the title is the capture trimmed and the content is
    the parts before and after, joined and trimmed. *)
Theorem extractTitle_sound (articleText : jsstring) :
  extractTitle articleText = (default_title, truncate articleText)
  \/ exists before m w cap rest,
       truncate articleText = before ++ m ++ w ++ cap ++ rest
       /\ starts_ci marker m = true /\ length m = 6
       /\ Forall (fun c => is_space c = true) w
       /\ cap <> []
       /\ Forall (fun c => is_nl c = false) cap
       /\ match rest with [] => True | c :: _ => c = LF end
       /\ extractTitle articleText = (trim cap, trim (before ++ rest)).
Proof.
  unfold extractTitle.
  destruct (includes _ _); [|now left].
  destruct (title_search (truncate articleText)) as [[[before cap] rest]|] eqn:E;
    [|now left].
  destruct (title_search_sound _ E) as (m & w & Hs & Hm & Hlen & Hw & Hne & Hcap & Hrest).
  destruct cap as [|c cap]; [now left|]. right.
  exists before, m, w, (c :: cap), rest. repeat split; assumption.
Qed.

(** The title never holds a line break and is trimmed, and neither the title
    nor the content is longer than the truncated text, 8003 units at most. *)
Theorem extractTitle_bounds (articleText : jsstring) :
  Forall (fun c => is_nl c = false) (fst (extractTitle articleText))
  /\ trim (fst (extractTitle articleText)) = fst (extractTitle articleText)
  /\ length (fst (extractTitle articleText)) <= max_length + 3
  /\ length (snd (extractTitle articleText)) <= max_length + 3.
Proof.
  pose proof (truncate_length articleText) as Hlen.
  pose proof max_length_large as Hbig.
  unfold extractTitle.
  assert (Hdefault :
    Forall (fun c => is_nl c = false) (fst (default_title, truncate articleText))
    /\ trim (fst (default_title, truncate articleText))
       = fst (default_title, truncate articleText)
    /\ length (fst (default_title, truncate articleText)) <= max_length + 3
    /\ length (snd (default_title, truncate articleText)) <= max_length + 3).
  { cbn [fst snd]. split; [|split; [|split]].
    - repeat constructor.
    - reflexivity.
    - change (length default_title) with 17. lia.
    - exact Hlen. }
  destruct (includes _ _); [|exact Hdefault].
  destruct (title_search (truncate articleText)) as [[[before cap] rest]|] eqn:E;
    [|exact Hdefault].
  destruct (title_search_sound _ E) as (m & w & Hs & _ & _ & _ & _ & Hcap & _).
  destruct cap as [|c cap]; [exact Hdefault|].
  cbn [fst snd]. rewrite Hs in Hlen. rewrite !length_app in Hlen.
  pose proof (trim_length (c :: cap)) as H1.
  pose proof (trim_length (before ++ rest)) as H2. rewrite length_app in H2.
  split; [|split; [|split]].
  - now apply trim_units.
  - apply trim_idempotent.
  - lia.
  - lia.
Qed.

Lemma guardSummary_usable_result (title : jsstring) (v : value) (s : jsstring) :
  guardSummary title v = Ok s -> usable s = true.
Proof.
  assert (Hdefault : usable (default_summary title) = true).
  { unfold usable. apply andb_true_iff. split.
    - apply negb_true_iff, eqs_false. now apply trim_keeps_head.
    - reflexivity. }
  unfold guardSummary. destruct (Val.truthy v); cbn [negb].
  2: { now intros [= <-]. }
  destruct v as [| | | |t| |]; try discriminate.
  destruct (eqs (trim t) [] || (startsWith (str "{") t && endsWith (str "}") t)) eqn:E.
  - now intros [= <-].
  - intros [= <-]. unfold usable. apply orb_false_iff in E as [E1 E2].
    now rewrite E1, E2.
Qed.

Lemma summary_usable (create : Responses) (articleText : jsstring) :
  usable (summary (summarizeArticle create articleText)) = true.
Proof.
  unfold summarizeArticle.
  destruct (extractTitle articleText) as [title content].
  destruct (create (prompt title content)) as [response|e]; [|reflexivity].
  cbn [bind].
  destruct (extractSummary response) as [extracted|e]; [|reflexivity].
  cbn [bind].
  destruct (guardSummary title extracted) as [s|e] eqn:E; [|reflexivity].
  cbn [bind summary]. now apply guardSummary_usable_result in E.
Qed.

(** Whatever the call gives (a response of any shape, or a rejection), the
    summary that comes back is not blank and is not of the form "{...}". *)
Theorem summarizeArticle_summary_usable (create : Responses) (articleText : jsstring) :
  trim (summary (summarizeArticle create articleText)) <> []
  /\ (startsWith (str "{") (summary (summarizeArticle create articleText))
      && endsWith (str "}") (summary (summarizeArticle create articleText))) = false.
Proof.
  pose proof (summary_usable create articleText) as H. unfold usable in H.
  apply andb_true_iff in H as [H1 H2].
  apply negb_true_iff in H1, H2. split; [now apply eqs_false | exact H2].
Qed.

(** The result is never partial: without an error it holds the title taken
    from the text, and with an error it is the fixed error record. *)
Theorem summarizeArticle_result_shape (create : Responses) (articleText : jsstring) :
  (error (summarizeArticle create articleText) = None
   /\ title (summarizeArticle create articleText) = fst (extractTitle articleText))
  \/ exists m,
       summarizeArticle create articleText
       = {| title := error_title; summary := error_summary; error := Some m |}.
Proof.
  unfold summarizeArticle.
  destruct (extractTitle articleText) as [t content]. cbn [fst].
  destruct (create (prompt t content)) as [response|e]; cbn [bind]; [|right; eauto].
  destruct (extractSummary response) as [extracted|e]; cbn [bind]; [|right; eauto].
  destruct (guardSummary t extracted) as [s|e]; cbn [bind]; [|right; eauto].
  left. now split.
Qed.

(** A response that is not an object (null, undefined, a number, a string)
    makes the tests on its properties throw: the result is the fixed error
    record. *)
Theorem summarizeArticle_primitive_response (create : Responses) (articleText : jsstring) :
  match create (prompt (fst (extractTitle articleText)) (snd (extractTitle articleText))) with
  | Ok (VObj _) | Ok (VArr _) | Throw _ => True
  | Ok _ =>
      summarizeArticle create articleText
      = {| title := error_title; summary := error_summary; error := Some EngineMsg |}
  end.
Proof.
  unfold summarizeArticle.
  destruct (extractTitle articleText) as [t content]. cbn [fst snd].
  destruct (create (prompt t content)) as [[| | | | | |]|e]; try exact I; reflexivity.
Qed.

End SummarizerMore.

(* ------------------------------------------------------------------ *)
(** ** The route of the summarizer *)

Section RouteMore.

Import SummarizeRoute.

(** The route sends a result only with status 200, and the summary of a
    result is never blank; every other answer is an error with status 400
    or 500. *)
Theorem summarize_POST_shape (helper : exc LLM.Responses) (request_json : exc value) :
  match body (POST helper request_json) with
  | ResultBody r =>
      status (POST helper request_json) = 200%Z /\ trim (LLM.summary r) <> []
  | ErrorBody _ =>
      status (POST helper request_json) = 400%Z
      \/ status (POST helper request_json) = 500%Z
  end.
Proof.
  unfold POST. destruct request_json as [b|e]; cbn [bind]; [|simpl; auto].
  destruct (Val.get b (str "text")) as [v|e]; cbn [bind]; [|simpl; auto].
  destruct v as [| | | |t| |]; try (simpl; now auto).
  destruct (negb (Val.truthy (VStr t)) || Nat.eqb (length (trim t)) 0);
    [simpl; now auto|].
  destruct helper as [create|e]; cbn [bind]; [|simpl; auto].
  simpl. split; [reflexivity|].
  pose proof (summary_usable create t) as H. unfold LLM.usable in H.
  apply andb_true_iff in H as [H _]. now apply negb_true_iff, eqs_false in H.
Qed.

(** A text that is missing, not a string, or blank is refused with status
    400 before the helper is looked at. *)
Theorem summarize_POST_invalid (helper : exc LLM.Responses) (b v : value) :
  Val.get b (str "text") = Ok v ->
  match v with VStr t => trim t = [] | _ => True end ->
  POST helper (Ok b)
  = {| status := 400; body := ErrorBody (Msg (str "Text must be a non-empty string")) |}.
Proof.
  intros Hb Hv. unfold POST. cbn [bind]. rewrite Hb. cbn [bind].
  destruct v as [| | | |t| |]; try reflexivity.
  rewrite Hv. simpl. now rewrite orb_true_r.
Qed.

(** A text that is not blank is answered with status 200 whatever the model
    call does: a rejected call comes back inside the result, as the fixed
    error record. *)
Theorem summarize_POST_valid (create : LLM.Responses) (b : value) (t : jsstring) :
  Val.get b (str "text") = Ok (VStr t) ->
  trim t <> [] ->
  POST (Ok create) (Ok b)
  = {| status := 200; body := ResultBody (LLM.summarizeArticle create t) |}
  /\ (LLM.error (LLM.summarizeArticle create t) = None
      \/ LLM.title (LLM.summarizeArticle create t) = LLM.error_title).
Proof.
  intros Hb Ht. split.
  - unfold POST. cbn [bind]. rewrite Hb. cbn [bind].
    destruct t as [|c t]; [now destruct Ht|]. cbn [Val.truthy negb orb].
    destruct (trim (c :: t)) as [|x l]; [now destruct Ht | reflexivity].
  - unfold LLM.summarizeArticle.
    destruct (LLM.extractTitle t) as [title content].
    destruct (create _) as [response|e]; cbn [bind]; [|now right].
    destruct (LLM.extractSummary response) as [x|e]; cbn [bind]; [|now right].
    destruct (LLM.guardSummary title x) as [y|e]; cbn [bind]; [now left | now right].
Qed.

End RouteMore.

Lemma summarize_POST_invalid_witness :
  SummarizeRoute.POST (Ok Sample.rejecting) (Ok Sample.blank_body)
  = {| SummarizeRoute.status := 400;
       SummarizeRoute.body :=
         SummarizeRoute.ErrorBody (Msg (str "Text must be a non-empty string")) |}.
Proof.
  exact (@summarize_POST_invalid (Ok Sample.rejecting) Sample.blank_body
           (VStr (str "  ")) eq_refl eq_refl).
Defined.

Lemma summarize_POST_valid_witness :
  SummarizeRoute.POST (Ok Sample.rejecting) (Ok Sample.text_body)
  = {| SummarizeRoute.status := 200;
       SummarizeRoute.body :=
         SummarizeRoute.ResultBody
           (LLM.summarizeArticle Sample.rejecting (str "title: Foo" ++ LF :: str "Body")) |}
  /\ (LLM.error (LLM.summarizeArticle Sample.rejecting (str "title: Foo" ++ LF :: str "Body"))
      = None
      \/ LLM.title (LLM.summarizeArticle Sample.rejecting (str "title: Foo" ++ LF :: str "Body"))
         = LLM.error_title).
Proof.
  refine (@summarize_POST_valid Sample.rejecting Sample.text_body
            (str "title: Foo" ++ LF :: str "Body") _ _).
  - reflexivity.
  - vm_compute. discriminate.
Defined.

(* ------------------------------------------------------------------ *)
(** ** The interest list *)

Section InterestList.

Import Interests.

Lemma existsb_eqs (x : jsstring) (l : list jsstring) :
  existsb (eqs x) l = true <-> In x l.
Proof.
  rewrite existsb_exists. split.
  - intros (y & Hy & E). apply eqs_true in E. now subst.
  - intros H. exists x. split; [assumption | apply eqs_refl].
Qed.

Lemma remove_at (n : nat) (l : list jsstring) :
  firstn n l ++ skipn (S n) l = l
  \/ exists x, l = firstn n l ++ x :: skipn (S n) l.
Proof.
  revert l. induction n as [|n IH]; intros [|y l]; simpl; auto.
  - right. now exists y.
  - destruct (IH l) as [H | [x H]].
    + left. now f_equal.
    + right. exists x. now f_equal.
Qed.

(** The list of interests stays free of duplicates and of blank or untrimmed
    entries, whatever is added or removed; removing never brings in an entry,
    and adding the same interest a second time changes nothing. *)
Theorem interests_invariant (interest : jsstring) (index : Z) (l : list jsstring) :
  NoDup l ->
  Forall (fun i => i <> [] /\ trim i = i) l ->
  (NoDup (snd (addInterest interest l))
   /\ Forall (fun i => i <> [] /\ trim i = i) (snd (addInterest interest l))
   /\ snd (addInterest interest (snd (addInterest interest l)))
      = snd (addInterest interest l))
  /\ (NoDup (removeInterest index l)
      /\ Forall (fun i => i <> [] /\ trim i = i) (removeInterest index l)
      /\ incl (removeInterest index l) l
      /\ length l - 1 <= length (removeInterest index l) <= length l).
Proof.
  intros Hnd Hall. split.
  - unfold addInterest.
    destruct (trim interest) as [|c t] eqn:Et.
    + cbn [snd]. now repeat split.
    + destruct (existsb (eqs (c :: t)) l) eqn:Ein.
      * cbn [snd]. rewrite Ein. now repeat split.
      * cbn [snd].
        assert (Hnot : ~ In (c :: t) l).
        { intros H. apply existsb_eqs in H. congruence. }
        assert (Hin : existsb (eqs (c :: t)) (l ++ [c :: t]) = true).
        { apply existsb_eqs, in_or_app. right. now left. }
        match goal with
        | |- context [existsb ?f (?a ++ ?b)] =>
            replace (existsb f (a ++ b)) with true by (symmetry; exact Hin)
        end.
        split; [|split; [|reflexivity]].
        -- apply NoDup_app; [assumption | repeat constructor; auto |].
           intros a Ha [<- | []]. now apply Hnot.
        -- apply Forall_app. split; [assumption|].
           constructor; [|constructor]. split; [discriminate|].
           rewrite <- Et. apply trim_idempotent.
  - unfold removeInterest.
    set (n := Z.to_nat _).
    destruct (remove_at n l) as [H | [x H]].
    + rewrite H. repeat split; try assumption; [apply incl_refl | lia | lia].
    + assert (Hincl : incl (firstn n l ++ skipn (S n) l) l).
      { intros a Ha. rewrite H. apply in_app_or in Ha as [Ha | Ha];
          apply in_or_app; [now left | right; now right]. }
      assert (Hlen : length l = S (length (firstn n l ++ skipn (S n) l))).
      { rewrite H at 1. rewrite !length_app. simpl. lia. }
      split; [|split; [|split; [exact Hincl|lia]]].
      * rewrite H in Hnd. now apply NoDup_remove_1 in Hnd.
      * apply Forall_forall. intros a Ha. rewrite Forall_forall in Hall.
        apply Hall. now apply Hincl.
Qed.

(** Removing at a position of the list takes out exactly the entry there; a
    position past the end removes nothing, and a negative position counts
    from the end. *)
Theorem removeInterest_at (a b : list jsstring) (x : jsstring) :
  removeInterest (Z.of_nat (length a)) (a ++ x :: b) = a ++ b
  /\ removeInterest (Z.of_nat (length (a ++ x :: b))) (a ++ x :: b) = a ++ x :: b
  /\ removeInterest (- Z.of_nat (length (x :: b))) (a ++ x :: b) = a ++ b.
Proof.
  assert (Hat : firstn (length a) (a ++ x :: b) ++ skipn (S (length a)) (a ++ x :: b)
                = a ++ b).
  { rewrite firstn_app, Nat.sub_diag, firstn_all. simpl firstn. rewrite app_nil_r.
    f_equal. change (S (length a)) with (1 + length a).
    rewrite <- (Nat.add_comm (length a) 1).
    replace (a ++ x :: b) with ((a ++ [x]) ++ b) by (now rewrite <- app_assoc).
    replace (length a + 1) with (length (a ++ [x])) by (rewrite length_app; reflexivity).
    rewrite skipn_app, Nat.sub_diag, skipn_all. reflexivity. }
  unfold removeInterest. repeat split.
  - replace (Z.ltb (Z.of_nat (length a)) 0) with false by (symmetry; apply Z.ltb_ge; lia).
    rewrite Z.min_l by (rewrite length_app; simpl; lia).
    now rewrite Nat2Z.id.
  - replace (Z.ltb (Z.of_nat (length (a ++ x :: b))) 0) with false
      by (symmetry; apply Z.ltb_ge; lia).
    rewrite Z.min_id, Nat2Z.id, firstn_all.
    rewrite skipn_all2 by lia. apply app_nil_r.
  - replace (Z.ltb (- Z.of_nat (length (x :: b))) 0) with true
      by (symmetry; apply Z.ltb_lt; simpl length; lia).
    replace (Z.max (Z.of_nat (length (a ++ x :: b)) + - Z.of_nat (length (x :: b))) 0)
      with (Z.of_nat (length a)) by (rewrite length_app; lia).
    now rewrite Nat2Z.id.
Qed.

End InterestList.

Lemma interests_invariant_witness :
  (NoDup (snd (Interests.addInterest (str " AI ") [str "climate"]))
   /\ Forall (fun i => i <> [] /\ trim i = i)
        (snd (Interests.addInterest (str " AI ") [str "climate"]))
   /\ snd (Interests.addInterest (str " AI ")
             (snd (Interests.addInterest (str " AI ") [str "climate"])))
      = snd (Interests.addInterest (str " AI ") [str "climate"]))
  /\ (NoDup (Interests.removeInterest 0 [str "climate"])
      /\ Forall (fun i => i <> [] /\ trim i = i) (Interests.removeInterest 0 [str "climate"])
      /\ incl (Interests.removeInterest 0 [str "climate"]) [str "climate"]
      /\ length [str "climate"] - 1 <= length (Interests.removeInterest 0 [str "climate"])
         <= length [str "climate"]).
Proof.
  refine (@interests_invariant (str " AI ") 0%Z [str "climate"] _ _).
  - repeat constructor. intros [].
  - repeat constructor. discriminate.
Defined.

(* ------------------------------------------------------------------ *)
(** ** Further properties of the orchestrator *)

Section PageMore.

Import Page.

Lemma strip_stars_step (a b : char16) (r : jsstring) :
  strip_stars (a :: b :: r)
  = if N.eqb a STAR && N.eqb b STAR then strip_stars r else a :: strip_stars (b :: r).
Proof. reflexivity. Qed.

Lemma strip_stars_head (b : char16) (r : jsstring) :
  N.eqb b STAR = false -> exists r', strip_stars (b :: r) = b :: r'.
Proof.
  intros Hb. destruct r as [|c r]; [now exists []|].
  rewrite strip_stars_step, Hb. cbn [andb]. eauto.
Qed.

Lemma strip_stars_clean_upto (n : nat) (s : jsstring) :
  length s <= n -> includes [STAR; STAR] (strip_stars s) = false.
Proof.
  revert s. induction n as [|n IH]; intros s Hlen.
  - destruct s; [reflexivity | simpl in Hlen; lia].
  - destruct s as [|a [|b r]].
    + reflexivity.
    + simpl. now rewrite andb_false_r.
    + rewrite strip_stars_step.
      destruct (N.eqb a STAR && N.eqb b STAR) eqn:E.
      * apply IH. simpl in Hlen. lia.
      * assert (Hrest : includes [STAR; STAR] (strip_stars (b :: r)) = false)
          by (apply IH; simpl in *; lia).
        cbn [includes]. rewrite Hrest, orb_false_r.
        cbn [startsWith]. rewrite (N.eqb_sym STAR a).
        destruct (N.eqb a STAR) eqn:Ea; [|reflexivity].
        cbn [andb] in *. destruct (@strip_stars_head b r E) as [r' ->].
        cbn [startsWith]. now rewrite (N.eqb_sym STAR b), E.
Qed.

(** The query that is searched for holds no "**": the markup is gone after
    one pass, also where three or more stars stood in a row. *)
Theorem strip_stars_clean (s : jsstring) :
  includes (str "**") (strip_stars s) = false
  /\ length (strip_stars s) <= length s.
Proof.
  split; [exact (@strip_stars_clean_upto (length s) s (le_n _))|].
  assert (H : forall n s, length s <= n -> length (strip_stars s) <= length s).
  { clear s. induction n as [|n IH]; intros s Hlen.
    - destruct s; [reflexivity | simpl in Hlen; lia].
    - destruct s as [|a [|b r]]; [reflexivity | reflexivity |].
      rewrite strip_stars_step. destruct (N.eqb a STAR && N.eqb b STAR).
      + assert (length (strip_stars r) <= length r) by (apply IH; simpl in *; lia).
        simpl. lia.
      + assert (length (strip_stars (b :: r)) <= length (b :: r))
          by (apply IH; simpl in *; lia).
        simpl in *. lia. }
  now apply (H (length s)).
Qed.

Lemma pick_empty (r : nat) : pick (VArr []) r = VUndefined.
Proof.
  unfold pick, random_index. simpl.
  destruct (Z.ltb _ 0); [reflexivity|]. now destruct (Z.to_nat _).
Qed.

Lemma summarizeStage_calls (fetch : Fetch) (log : list FetchCall)
    (selectedResult resultTitle : value) :
  fst (summarizeStage fetch log selectedResult resultTitle) = log
  \/ exists text,
       fst (summarizeStage fetch log selectedResult resultTitle)
       = log ++ [PostSummarize (str "title: " ++ text)].
Proof.
  unfold summarizeStage.
  destruct (Val.get selectedResult (str "snippet")) as [snippet|e]; cbn [bind];
    [|now left].
  right. eexists. cbn [fst]. reflexivity.
Qed.

Lemma searchStage_calls (fetch : Fetch) (log : list FetchCall) (q : jsstring) (r2 : nat) :
  fst (searchStage fetch log q r2) = log
  \/ well_formed q = true
     /\ (fst (searchStage fetch log q r2) = log ++ [GetScholar q]
         \/ exists text,
              fst (searchStage fetch log q r2)
              = log ++ [GetScholar q; PostSummarize (str "title: " ++ text)]).
Proof.
  unfold searchStage.
  destruct (well_formed q); cbn [negb]; [right; split; [reflexivity|] | now left].
  destruct (fetch log (GetScholar q)) as [e|ok [scholarData|e]]; try (now left).
  destruct (Val.get scholarData (str "scholar_results")) as [results|e]; [|now left].
  destruct (negb (Val.truthy results) || _); [now left|].
  destruct (negb (Val.isArray results)); [now left|].
  destruct (negb (Val.truthy (pick results r2))); [now left|].
  destruct (Val.get (pick results r2) (str "title")) as [resultTitle|e]; [|now left].
  destruct (negb (Val.truthy resultTitle)); [now left|].
  destruct (summarizeStage_calls fetch (log ++ [GetScholar q]) (pick results r2) resultTitle)
    as [H | [text H]]; rewrite H.
  - now left.
  - right. exists text. now rewrite <- app_assoc.
Qed.

(** A run makes its calls in the order of the pipeline and at most once each:
    the query generator, then the search provider, then the summarizer; the
    query searched for is well formed and without "**", and the text sent to
    the summarizer begins with "title: ".  It leaves an article on the page
    and the loading flag cleared.  Without interests nothing happens. *)
Theorem generateArticle_calls (fetch : Fetch) (r1 r2 : nat) (st : PageState) :
  (interests st = [] /\ generateArticle fetch r1 r2 st = (st, []))
  \/ (interests st <> []
      /\ interests (fst (generateArticle fetch r1 r2 st)) = interests st
      /\ loading (fst (generateArticle fetch r1 r2 st)) = false
      /\ article (fst (generateArticle fetch r1 r2 st)) <> None
      /\ (snd (generateArticle fetch r1 r2 st) = [PostCohere (interests st)]
          \/ exists q,
               well_formed q = true /\ includes (str "**") q = false
               /\ (snd (generateArticle fetch r1 r2 st)
                   = [PostCohere (interests st); GetScholar q]
                   \/ exists text,
                        snd (generateArticle fetch r1 r2 st)
                        = [PostCohere (interests st); GetScholar q;
                           PostSummarize (str "title: " ++ text)]))).
Proof.
  unfold generateArticle.
  destruct (interests st) as [|i rest] eqn:Ei; [now left|]. right.
  split; [discriminate|].
  destruct (run fetch (i :: rest) r1 r2) as [log outcome] eqn:Erun.
  cbn [fst snd interests loading article].
  split; [reflexivity|]. split; [reflexivity|]. split; [discriminate|].
  assert (Hlog : log = fst (run fetch (i :: rest) r1 r2)) by now rewrite Erun.
  rewrite Hlog. clear Erun Hlog. unfold run.
  destruct (fetch [] (PostCohere (i :: rest))) as [e|ok [cohereData|e]]; try (now left).
  destruct (Val.get cohereData (str "queries")) as [queries|e]; [|now left].
  destruct (negb (Val.truthy queries) || _); [now left|].
  destruct (pick queries r1) as [| | | |selectedQuery| |]; try (now left).
  destruct (searchStage_calls fetch [PostCohere (i :: rest)] (strip_stars selectedQuery) r2)
    as [H | [Hwf [H | [text H]]]]; rewrite H.
  - now left.
  - right. exists (strip_stars selectedQuery).
    split; [assumption|]. split; [exact (@strip_stars_clean_upto _ selectedQuery (le_n _))|].
    now left.
  - right. exists (strip_stars selectedQuery).
    split; [assumption|]. split; [exact (@strip_stars_clean_upto _ selectedQuery (le_n _))|].
    right. now exists text.
Qed.


(** A run that goes through shows the article that was picked, for a
    selected result whose title is a non-empty string and whose snippet is a
    string or falsy: the link and the original title come from the selected
    search result, the title is the one of the summary, or the one of the
    result when the summary has none, the summary falls back to
    "No summary available.", and the text sent to the summarizer is
    "title: ", the title, a line break and the snippet. *)
Theorem success_terminal (fetch : Fetch) (r1 r2 : nat) (st : PageState)
    (ok ok' : bool) (cohereData queries scholarData results selected : value)
    (selectedQuery titleText snippetText : jsstring) (snippet summaryData t s l : value) :
  interests st <> [] ->
  fetch [] (PostCohere (interests st)) = FetchResponse ok (Ok cohereData) ->
  Val.get cohereData (str "queries") = Ok queries ->
  Val.isArray queries = true ->
  pick queries r1 = VStr selectedQuery ->
  well_formed (strip_stars selectedQuery) = true ->
  fetch [PostCohere (interests st)] (GetScholar (strip_stars selectedQuery))
  = FetchResponse ok' (Ok scholarData) ->
  Val.get scholarData (str "scholar_results") = Ok results ->
  Val.isArray results = true ->
  pick results r2 = selected ->
  Val.truthy selected = true ->
  Val.get selected (str "title") = Ok (VStr titleText) ->
  titleText <> [] ->
  Val.get selected (str "snippet") = Ok snippet ->
  snippet = VStr snippetText \/ (Val.truthy snippet = false /\ snippetText = []) ->
  Val.get selected (str "title_link") = Ok l ->
  fetch [PostCohere (interests st); GetScholar (strip_stars selectedQuery)]
    (PostSummarize (str "title: " ++ titleText ++ [LF] ++ snippetText))
  = FetchResponse true (Ok summaryData) ->
  Val.get summaryData (str "title") = Ok t ->
  Val.get summaryData (str "summary") = Ok s ->
  generateArticle fetch r1 r2 st
  = ({| interests := interests st;
        article := Some {| title := if Val.truthy t then t else VStr titleText;
                           summary := if Val.truthy s then s
                                      else VStr (str "No summary available.");
                           link := l;
                           originalTitle := VStr titleText |};
        loading := false |},
     [PostCohere (interests st); GetScholar (strip_stars selectedQuery);
      PostSummarize (str "title: " ++ titleText ++ [LF] ++ snippetText)]).
Proof.
  intros Hne Hc Hq Harr Hpick Hwf Hs Hr Hrarr Hsel Htruthy Htitle Htt Hsn Hsnip Hl Hf
         Ht Hsum.
  unfold generateArticle, run.
  destruct (interests st) as [|i rest] eqn:Ei; [now destruct Hne|].
  rewrite Hc, Hq.
  destruct queries as [| | | | |items|]; try discriminate.
  destruct items as [|x items]; [rewrite pick_empty in Hpick; discriminate Hpick|].
  simpl negb. simpl orb. cbv iota. rewrite Hpick.
  unfold searchStage. rewrite Hwf. cbn [negb]. rewrite Hs, Hr.
  destruct results as [| | | | |ritems|]; try discriminate.
  destruct ritems as [|y ritems].
  { subst selected. rewrite pick_empty in Htruthy. discriminate Htruthy. }
  simpl negb. simpl orb. cbv iota. rewrite Hsel, Htruthy. cbn [negb].
  rewrite Htitle.
  destruct titleText as [|c0 title0]; [now destruct Htt|].
  cbn [Val.truthy negb].
  unfold summarizeStage. rewrite Hsn. cbn [bind].
  change ([PostCohere (i :: rest)] ++ [GetScholar (strip_stars selectedQuery)])
    with [PostCohere (i :: rest); GetScholar (strip_stars selectedQuery)].
  destruct Hsnip as [-> | [Hfalse ->]].
  - destruct snippetText as [|c1 text1]; cbn [Val.truthy Val.to_string];
      rewrite Hf; cbn [bind];
      rewrite Ht; cbn [bind]; rewrite Hsum; cbn [bind]; rewrite Hl; reflexivity.
  - rewrite Hfalse. cbn [Val.to_string]. rewrite Hf. cbn [bind].
    rewrite Ht. cbn [bind]. rewrite Hsum. cbn [bind]. rewrite Hl. reflexivity.
Qed.

End PageMore.


Lemma success_terminal_witness :
  Page.generateArticle Sample.fetch_success 0 0 Sample.page0
  = ({| Page.interests := Page.interests Sample.page0;
        Page.article :=
          Some {| Page.title := VStr (str "Quantum supremacy");
                  Page.summary := VStr (str "A summary.");
                  Page.link := VStr (str "https://example.org/q");
                  Page.originalTitle := VStr (str "Quantum supremacy") |};
        Page.loading := false |},
     [Page.PostCohere (Page.interests Sample.page0);
      Page.GetScholar (Page.strip_stars (str "**deep** learning"));
      Page.PostSummarize (str "title: " ++ str "Quantum supremacy" ++ [LF] ++ str "We report")]).
Proof.
  refine (@success_terminal Sample.fetch_success 0 0 Sample.page0 true true
            (VObj [(str "queries", VArr [VStr (str "**deep** learning")])])
            (VArr [VStr (str "**deep** learning")])
            (VObj [(str "scholar_results", VArr [Sample.article_json])])
            (VArr [Sample.article_json]) Sample.article_json
            (str "**deep** learning")
            (str "Quantum supremacy") (str "We report") (VStr (str "We report"))
            (VObj [(str "summary", VStr (str "A summary."))])
            VUndefined (VStr (str "A summary.")) (VStr (str "https://example.org/q"))
            _ _ _ _ _ _ _ _ _ _ _ _ _ _ _ _ _ _ _);
    try (discriminate || reflexivity).
  now left.
Defined.

(* ------------------------------------------------------------------ *)
(** ** What the page shows *)

Section Shown.

Import Page View.

Lemma summarizeStage_populated (fetch : Fetch) (log : list FetchCall)
    (selectedResult resultTitle : value) :
  Val.truthy resultTitle = true ->
  match snd (summarizeStage fetch log selectedResult resultTitle) with
  | Ok a => populated a
  | Throw _ => True
  end.
Proof.
  intros Ht. unfold summarizeStage.
  destruct (Val.get selectedResult (str "snippet")) as [snippet|e]; cbn [bind snd];
    [|exact I].
  destruct (fetch log _) as [e|[|] [summaryData|e]]; cbn [bind]; try exact I.
  destruct (Val.get summaryData (str "title")) as [t|e]; cbn [bind]; [|exact I].
  destruct (Val.get summaryData (str "summary")) as [s|e]; cbn [bind]; [|exact I].
  destruct (Val.get selectedResult (str "title_link")) as [l|e]; cbn [bind]; [|exact I].
  unfold populated. cbn [title summary link originalTitle]. repeat split.
  - now destruct (Val.truthy t) eqn:E.
  - now destruct (Val.truthy s) eqn:E.
  - now left.
Qed.

Lemma searchStage_populated (fetch : Fetch) (log : list FetchCall) (q : jsstring) (r2 : nat) :
  match snd (searchStage fetch log q r2) with
  | Ok a => populated a
  | Throw _ => True
  end.
Proof.
  assert (Hmsg : forall t s, t <> [] -> s <> [] -> populated (message_article t s)).
  { intros [|c t] [|d s] Ht Hs; try (now destruct Ht); try (now destruct Hs).
    unfold populated. simpl. auto. }
  unfold searchStage.
  destruct (well_formed q); cbn [negb]; [|exact I].
  destruct (fetch log (GetScholar q)) as [e|ok [scholarData|e]]; try exact I.
  destruct (Val.get scholarData (str "scholar_results")) as [results|e]; [|exact I].
  destruct (negb (Val.truthy results) || _); [apply Hmsg; discriminate|].
  destruct (negb (Val.isArray results)); [apply Hmsg; discriminate|].
  destruct (negb (Val.truthy (pick results r2))); [apply Hmsg; discriminate|].
  destruct (Val.get (pick results r2) (str "title")) as [resultTitle|e]; [|exact I].
  destruct (Val.truthy resultTitle) eqn:Et; cbn [negb]; [|apply Hmsg; discriminate].
  now apply summarizeStage_populated.
Qed.

(** Every run with interests leaves an article whose title and summary are
    not empty, whatever the three endpoints answer; a link is shown only
    together with the title of the search result it belongs to. *)
Theorem generateArticle_populated (fetch : Fetch) (r1 r2 : nat) (st : PageState) :
  interests st <> [] ->
  exists a,
    article (fst (generateArticle fetch r1 r2 st)) = Some a
    /\ Val.truthy (title a) = true
    /\ Val.truthy (summary a) = true
    /\ (Val.truthy (originalTitle a) = true \/ link a = VUndefined).
Proof.
  intros Hne. unfold generateArticle.
  destruct (interests st) as [|i rest]; [now destruct Hne|].
  destruct (run fetch (i :: rest) r1 r2) as [log outcome] eqn:Erun.
  cbn [fst article]. eexists. split; [reflexivity|].
  assert (Hgeneric : populated generic_error) by (unfold populated; simpl; auto).
  assert (Hout : match outcome with Ok a => populated a | Throw _ => True end).
  { assert (Ho : outcome = snd (run fetch (i :: rest) r1 r2)) by now rewrite Erun.
    rewrite Ho. clear Erun Ho. unfold run.
    destruct (fetch [] _) as [e|ok [cohereData|e]]; try exact I.
    destruct (Val.get cohereData (str "queries")) as [queries|e]; [|exact I].
    destruct (negb (Val.truthy queries) || _);
      [unfold populated; simpl; auto|].
    destruct (pick queries r1) as [| | | |selectedQuery| |]; try exact I.
    apply searchStage_populated. }
  destruct outcome as [a|e]; [exact Hout | exact Hgeneric].
Qed.

End Shown.

Lemma generateArticle_populated_witness :
  exists a,
    Page.article (fst (Page.generateArticle Sample.fetch_success 0 0 Sample.page0)) = Some a
    /\ Val.truthy (Page.title a) = true
    /\ Val.truthy (Page.summary a) = true
    /\ (Val.truthy (Page.originalTitle a) = true \/ Page.link a = VUndefined).
Proof.
  refine (@generateArticle_populated Sample.fetch_success 0 0 Sample.page0 _).
  discriminate.
Defined.

(** The constructor of the query generator throws exactly when neither the
    configuration nor the environment holds a non-empty key; a helper that
    is built holds a non-empty token and a non-empty model name. *)
Theorem new_CohereHelper_key (config : Cohere.CohereConfig) (env : Cohere.Env) :
  match Cohere.new_CohereHelper config env with
  | Throw e =>
      e = ErrorObj (Msg Cohere.missing_key_message)
      /\ Scholar.no_key (Cohere.cfg_apiKey config) = true
      /\ Scholar.no_key (Cohere.COHERE_KEY env) = true
  | Ok h =>
      Cohere.token h <> [] /\ Cohere.model h <> []
      /\ (Scholar.no_key (Cohere.cfg_apiKey config) = false
          \/ Scholar.no_key (Cohere.COHERE_KEY env) = false)
  end.
Proof.
  unfold Cohere.new_CohereHelper.
  destruct (Cohere.cfg_apiKey config) as [[|? ?]|];
    destruct (Cohere.COHERE_KEY env) as [[|? ?]|]; simpl;
    repeat split; try discriminate; auto;
    destruct (Cohere.cfg_model config) as [[|? ?]|];
    destruct (Cohere.COHERE_MODEL_FINE_TUNED env) as [[|? ?]|]; discriminate.
Qed.
